(** * CloudExtelGPT: the conversation and message-dispatch state engine

    A shallow embedding of the React state held by [AppProvider]
    (context/AppContext) and of the attachment staging done by [ChatPage],
    with the properties of the dispatch protocol stated over it; then the
    handlers of the sidebar, of the chat header and of [DataPage] that sit
    around them.

    Conventions of the embedding:
    - a JS string is a [string]; every [ascii] stands for one UTF-16 code
      unit below 256, so [String.length] is the JS [length];
    - a React state cell is a field of a record, a state setter is an action
      of a small state monad, and a callback reads the cells of the render it
      was created in, which is the state at the time it is invoked;
    - the clock ([Date.now()], [new Date().toISOString()]), the server's
      answer and the identifiers drawn for staged files are inputs. *)

From stdpp Require Import base list strings pretty gmap.
From Stdlib Require Import Ascii ZArith.

(** ** JavaScript string primitives *)

Module JS.

(** White space removed by [String.prototype.trim], restricted to code
    units below 256: TAB, LF, VT, FF, CR, SP and NBSP. *)
Definition isWhiteSpace (c : ascii) : bool :=
  let n := nat_of_ascii c in
  (9 <=? n) && (n <=? 13) || (n =? 32) || (n =? 160).

Fixpoint trimStart (s : string) : string :=
  match s with
  | EmptyString => EmptyString
  | String c r => if isWhiteSpace c then trimStart r else s
  end.

Fixpoint trimEnd (s : string) : string :=
  match s with
  | EmptyString => EmptyString
  | String c r =>
      match trimEnd r with
      | EmptyString => if isWhiteSpace c then EmptyString else String c EmptyString
      | r' => String c r'
      end
  end.

(** [s.trim()] *)
Definition trim (s : string) : string := trimEnd (trimStart s).

(** [s.slice(0, n)] *)
Fixpoint slice0 (n : nat) (s : string) : string :=
  match n, s with
  | S n', String c r => String c (slice0 n' r)
  | _, _ => EmptyString
  end.

(** Truthiness of a string: every string but the empty one. *)
Definition truthy (s : string) : bool := negb (bool_decide (s = "")).

(** [v || d] for a property [v] that is a string or absent. *)
Definition orElse (v : option string) (d : string) : string :=
  match v with
  | Some s => if truthy s then s else d
  | None => d
  end.

(** [s.startsWith(p)] *)
Fixpoint startsWith (p s : string) : bool :=
  match p, s with
  | EmptyString, _ => true
  | String a p', String b s' => bool_decide (a = b) && startsWith p' s'
  | String _ _, EmptyString => false
  end.

(** One code unit of [s.toLowerCase()], for code units below 256: the
    letters A-Z and the Latin-1 capitals (all of 192-222 but the
    multiplication sign) move up by 32. *)
Definition toLowerCaseUnit (c : ascii) : ascii :=
  let n := nat_of_ascii c in
  if (65 <=? n) && (n <=? 90) || (192 <=? n) && (n <=? 222) && negb (n =? 215)
  then ascii_of_nat (n + 32)
  else c.

(** [s.toLowerCase()] *)
Fixpoint toLowerCase (s : string) : string :=
  match s with
  | EmptyString => EmptyString
  | String c r => String (toLowerCaseUnit c) (toLowerCase r)
  end.

(** [s.lastIndexOf(c)] for a one-character [c]; [None] is the result -1. *)
Fixpoint lastIndexOf (c : ascii) (s : string) : option nat :=
  match s with
  | EmptyString => None
  | String a r =>
      match lastIndexOf c r with
      | Some k => Some (S k)
      | None => if bool_decide (a = c) then Some 0 else None
      end
  end.

(** [s.substring(k)] for an index [k] that is not negative. *)
Fixpoint substringFrom (k : nat) (s : string) : string :=
  match k, s with
  | S k', String _ r => substringFrom k' r
  | _, _ => s
  end.

(** [s.substring(i)] for the result [i] of a [lastIndexOf]: a negative start
    counts as 0. *)
Definition substringAt (i : option nat) (s : string) : string :=
  match i with
  | Some k => substringFrom k s
  | None => s
  end.

End JS.

(** ** Data model *)

(** A blob URL handed out by [URL.createObjectURL]; the browser never hands
    out the same one twice, which the allocator below models by a counter. *)
Definition Url := nat.

(** The browser's [File]: only what the client reads of it. *)
Record File := mkFile {
  file_name : string;
  file_size : Z;
  file_type : string
}.

(** A staged attachment, as built by [handleFileSelect].  [att_id] stands
    for the number [Date.now() + Math.random()]: the page only compares ids
    with [===], so an integer code of the number is kept. *)
Record Attachment := mkAttachment {
  att_id : Z;
  att_file : File;
  att_name : string;
  att_size : Z;
  att_type : string;
  att_preview : option Url
}.

(** The projection of an attachment recorded in a message. *)
Record FileSummary := mkFileSummary {
  fs_name : string;
  fs_size : Z;
  fs_type : string;
  fs_preview : option Url
}.

Inductive Role := user | assistant.

(** A message of the log.  The assistant's messages are built without a
    [files] property and, but for the apology, without an [error] property;
    the page reads both only through their truthiness, so an absent [files]
    is the empty list here and an absent [error] is [false]. *)
Record Message := mkMessage {
  msg_id : string;
  msg_role : Role;
  msg_content : string;
  msg_timestamp : string;
  msg_files : list FileSummary;
  msg_error : bool
}.

(** A conversation object.  Those of the list always carry the three
    properties; [{ ...prev, title }] on a null [prev] yields an object with a
    title only, hence the optional [id] and [createdAt]. *)
Record Conversation := mkConversation {
  conv_id : option string;
  conv_title : string;
  conv_createdAt : option string
}.

(** One reading of the clock: [Date.now()] and [new Date().toISOString()]. *)
Record Clock := mkClock {
  now : Z;
  iso : string
}.

(** [response.data] of a successful request. *)
Record ResponseData := mkResponseData {
  response : option string;
  message : option string;
  conversation_id : option string
}.

(** How the awaited [axios.post] settles. *)
Inductive Outcome :=
  | Resolved (data : ResponseData)
  | Rejected.

Global Instance Role_eq_dec : EqDecision Role.
Proof. solve_decision. Defined.
Global Instance File_eq_dec : EqDecision File.
Proof. solve_decision. Defined.
Global Instance Attachment_eq_dec : EqDecision Attachment.
Proof. solve_decision. Defined.
Global Instance FileSummary_eq_dec : EqDecision FileSummary.
Proof. solve_decision. Defined.
Global Instance Message_eq_dec : EqDecision Message.
Proof. solve_decision. Defined.
Global Instance Conversation_eq_dec : EqDecision Conversation.
Proof. solve_decision. Defined.

(** [{ ...c, title: t }] *)
Definition withTitle (c : Conversation) (t : string) : Conversation :=
  {| conv_id := conv_id c; conv_title := t; conv_createdAt := conv_createdAt c |}.

(** [{ ...prev, title: t }] where [prev] may be null. *)
Definition spreadTitle (prev : option Conversation) (t : string) : Conversation :=
  match prev with
  | Some c => withTitle c t
  | None => {| conv_id := None; conv_title := t; conv_createdAt := None |}
  end.

(** ** AppContext: the provider's state and callbacks *)

Module AppContext.

Record AppState := mkAppState {
  conversations : list Conversation;
  currentConversation : option Conversation;
  messages : list Message;
  isLoading : bool;
  sidebarOpen : bool
}.

(** The five [useState] initial values. *)
Definition initial : AppState :=
  {| conversations := []; currentConversation := None; messages := [];
     isLoading := false; sidebarOpen := true |}.

(** *** State monad of the setters *)

Definition M (A : Type) : Type := AppState -> A * AppState.

Global Instance M_ret : MRet M := fun A a s => (a, s).
Global Instance M_bind : MBind M :=
  fun A B k m s => let '(a, s') := m s in k a s'.

Definition exec {A} (m : M A) (s : AppState) : AppState := snd (m s).
Definition result {A} (m : M A) (s : AppState) : A := fst (m s).

(** The cells as the running callback sees them. *)
Definition render : M AppState := fun s => (s, s).

Definition setConversations (f : list Conversation -> list Conversation) : M unit :=
  fun s => (tt, {| conversations := f (conversations s);
                   currentConversation := currentConversation s;
                   messages := messages s;
                   isLoading := isLoading s;
                   sidebarOpen := sidebarOpen s |}).

Definition setCurrentConversation
    (f : option Conversation -> option Conversation) : M unit :=
  fun s => (tt, {| conversations := conversations s;
                   currentConversation := f (currentConversation s);
                   messages := messages s;
                   isLoading := isLoading s;
                   sidebarOpen := sidebarOpen s |}).

Definition setMessages (f : list Message -> list Message) : M unit :=
  fun s => (tt, {| conversations := conversations s;
                   currentConversation := currentConversation s;
                   messages := f (messages s);
                   isLoading := isLoading s;
                   sidebarOpen := sidebarOpen s |}).

Definition setIsLoading (b : bool) : M unit :=
  fun s => (tt, {| conversations := conversations s;
                   currentConversation := currentConversation s;
                   messages := messages s;
                   isLoading := b;
                   sidebarOpen := sidebarOpen s |}).

Definition setSidebarOpen (f : bool -> bool) : M unit :=
  fun s => (tt, {| conversations := conversations s;
                   currentConversation := currentConversation s;
                   messages := messages s;
                   isLoading := isLoading s;
                   sidebarOpen := f (sidebarOpen s) |}).

(** *** Callbacks *)

(** [c.id === conversationId] for a string [conversationId]. *)
Definition hasId (conversationId : string) (c : Conversation) : bool :=
  bool_decide (conv_id c = Some conversationId).

(** The callback has no return statement: a call evaluates to
    [undefined], which is the [None] it yields. *)
Definition createNewConversation (clk : Clock) : M (option string) :=
  let newConversation :=
    {| conv_id := Some (pretty (now clk));
       conv_title := "New Chat";
       conv_createdAt := Some (iso clk) |} in
  setConversations (fun prev => newConversation :: prev) ;;
  setCurrentConversation (fun _ => Some newConversation) ;;
  setMessages (fun _ => []) ;;
  mret None.

Definition selectConversation (conversationId : string) : M unit :=
  s ← render;
  match List.find (hasId conversationId) (conversations s) with
  | Some conversation =>
      setCurrentConversation (fun _ => Some conversation) ;;
      setMessages (fun _ => [])
  | None => mret tt
  end.

(** [currentConversation?.id === conversationId] *)
Definition currentHasId (conversationId : string)
    (cur : option Conversation) : bool :=
  match cur with
  | Some c => hasId conversationId c
  | None => false
  end.

Definition deleteConversation (conversationId : string) : M unit :=
  s ← render;
  setConversations
    (fun prev => filter (fun c => conv_id c ≠ Some conversationId) prev) ;;
  if currentHasId conversationId (currentConversation s) then
    setCurrentConversation (fun _ => None) ;;
    setMessages (fun _ => [])
  else mret tt.

Definition renameConversation (conversationId newTitle : string) : M unit :=
  s ← render;
  if negb (JS.truthy (JS.trim newTitle)) then mret tt
  else
    setConversations
      (fun prev =>
         (fun c => if hasId conversationId c
                   then withTitle c (JS.trim newTitle) else c) <$> prev) ;;
    if currentHasId conversationId (currentConversation s) then
      setCurrentConversation
        (fun prev => Some (spreadTitle prev (JS.trim newTitle)))
    else mret tt.

Definition clearCurrentConversation : M unit :=
  setCurrentConversation (fun _ => None) ;;
  setMessages (fun _ => []).

Definition toggleSidebar : M unit :=
  setSidebarOpen negb.

(** *** sendMessage

    The async callback runs in two synchronous stretches: up to the
    [await] of the request, and from the settlement of the request to the
    end.  Other callbacks may run in between.  The second stretch still
    runs in the closure of the call, so what it reads of [content],
    [files], [currentConversation] and [messages.length] is what [Pending]
    keeps; only the functional setters see the cells as they are then. *)

(** The body of the request. *)
Record FormData := mkFormData {
  fd_message : string;
  fd_conversation_id : string;
  fd_files : list File
}.

Record Pending := mkPending {
  p_content : string;
  p_files : list Attachment;
  p_currentConversation : option Conversation;
  p_messages_length : nat;
  p_formData : FormData
}.

Definition summary (f : Attachment) : FileSummary :=
  {| fs_name := att_name f; fs_size := att_size f;
     fs_type := att_type f; fs_preview := att_preview f |}.

(** [content.trim() || files.length > 0 ? `Sent ${files.length} file(s)` : ""]:
    the conditional binds weaker than [||], so the condition is
    [content.trim() || files.length > 0]. *)
Definition userContent (content : string) (files : list Attachment) : string :=
  if JS.truthy (JS.trim content) || bool_decide (0 < length files)
  then "Sent " +:+ pretty (length files) +:+ " file(s)"
  else "".

Definition userMessage (clk : Clock) (content : string)
    (files : list Attachment) : Message :=
  {| msg_id := pretty (now clk);
     msg_role := user;
     msg_content := userContent content files;
     msg_timestamp := iso clk;
     msg_files := summary <$> files;
     msg_error := false |}.

(** [currentConversation?.id || ""] *)
Definition currentIdOrEmpty (cur : option Conversation) : string :=
  match cur with
  | Some c => JS.orElse (conv_id c) ""
  | None => ""
  end.

(** The precondition of a send: some text is left after trimming, or
    there is a file. *)
Definition sendable (content : string) (files : list Attachment) : Prop :=
  JS.trim content ≠ "" ∨ files ≠ [].

(** What the suspended call keeps of the render it was made in. *)
Definition suspended (content : string) (files : list Attachment)
    (s : AppState) : Pending :=
  {| p_content := content;
     p_files := files;
     p_currentConversation := currentConversation s;
     p_messages_length := length (messages s);
     p_formData :=
       {| fd_message := JS.trim content;
          fd_conversation_id := currentIdOrEmpty (currentConversation s);
          fd_files := att_file <$> files |} |}.

(** From the call to the [await]: [None] is the early return. *)
Definition sendMessage_begin (clk : Clock) (content : string)
    (files : list Attachment) : M (option Pending) :=
  s ← render;
  if negb (JS.truthy (JS.trim content)) && bool_decide (length files = 0)
  then mret None
  else
    setMessages (fun prev => prev ++ [userMessage clk content files]) ;;
    setIsLoading true ;;
    mret (Some (suspended content files s)).

Definition assistantMessage (clk : Clock) (data : ResponseData) : Message :=
  {| msg_id := pretty (now clk + 1)%Z;
     msg_role := assistant;
     msg_content :=
       JS.orElse (response data)
         (JS.orElse (message data) "No response received");
     msg_timestamp := iso clk;
     msg_files := [];
     msg_error := false |}.

Definition errorMessage (clk : Clock) : Message :=
  {| msg_id := pretty (now clk + 1)%Z;
     msg_role := assistant;
     msg_content := "Sorry, I encountered an error. Please try again.";
     msg_timestamp := iso clk;
     msg_files := [];
     msg_error := true |}.

(** [content.trim().slice(0, 50) || `Chat with ${files.length} file(s)`] *)
Definition derivedTitle (content : string) (files : list Attachment) : string :=
  JS.orElse (Some (JS.slice0 50 (JS.trim content)))
            ("Chat with " +:+ pretty (length files) +:+ " file(s)").

(** [c.id === currentConversation.id] *)
Definition sameId (cc c : Conversation) : bool :=
  bool_decide (conv_id c = conv_id cc).

(** From the settlement of the request to the end; [clkA] is the clock
    read for the appended message, [clkC] the one read for a conversation
    created here. *)
Definition sendMessage_settle (p : Pending) (o : Outcome)
    (clkA clkC : Clock) : M unit :=
  match o with
  | Resolved data =>
      setMessages (fun prev => prev ++ [assistantMessage clkA data]) ;;
      match p_currentConversation p with
      | Some cc =>
          if bool_decide (conv_title cc = "New Chat")
             && bool_decide (p_messages_length p = 0)
          then
            let newTitle := derivedTitle (p_content p) (p_files p) in
            setCurrentConversation
              (fun prev => Some (spreadTitle prev newTitle)) ;;
            setConversations
              (fun prev =>
                 (fun c => if sameId cc c
                           then withTitle c newTitle else c) <$> prev)
          else mret tt
      | None => mret tt
      end ;;
      match p_currentConversation p with
      | None =>
          let newConversation :=
            {| conv_id :=
                 Some (JS.orElse (conversation_id data) (pretty (now clkC)));
               conv_title := derivedTitle (p_content p) (p_files p);
               conv_createdAt := Some (iso clkC) |} in
          setCurrentConversation (fun _ => Some newConversation) ;;
          setConversations (fun prev => newConversation :: prev)
      | Some _ => mret tt
      end
  | Rejected =>
      setMessages (fun prev => prev ++ [errorMessage clkA])
  end ;;
  setIsLoading false.

(** A send with nothing running between its two stretches. *)
Definition sendMessage (clk : Clock) (content : string)
    (files : list Attachment) (o : Outcome) (clkA clkC : Clock) : M unit :=
  p ← sendMessage_begin clk content files;
  match p with
  | Some p => sendMessage_settle p o clkA clkC
  | None => mret tt
  end.

(** *** The callbacks as the components call them *)

(** [renameConversation] for whatever the caller passes as id: a component
    passes the [id] property of a conversation object, which is [undefined]
    ([None]) when the object has none. *)
Definition renameConversationAt (conversationId : option string)
    (newTitle : string) : M unit :=
  s ← render;
  if negb (JS.truthy (JS.trim newTitle)) then mret tt
  else
    setConversations
      (fun prev =>
         (fun c => if bool_decide (conv_id c = conversationId)
                   then withTitle c (JS.trim newTitle) else c) <$> prev) ;;
    if bool_decide (currentConversation s ≫= conv_id = conversationId) then
      setCurrentConversation
        (fun prev => Some (spreadTitle prev (JS.trim newTitle)))
    else mret tt.

(** [handleRename] of the sidebar's [ConversationItem]; [editValue] is the
    text of the inline editor. *)
Definition ConversationItem_handleRename (conversation : Conversation)
    (editValue : string) : M unit :=
  if JS.truthy (JS.trim editValue)
     && negb (bool_decide (JS.trim editValue = conv_title conversation))
  then renameConversationAt (conv_id conversation) (JS.trim editValue)
  else mret tt.

(** [handleTitleEdit] of the chat page's header; [editTitle] is the text of
    the title editor. *)
Definition handleTitleEdit (editTitle : string) : M unit :=
  s ← render;
  match currentConversation s with
  | Some cc =>
      if JS.truthy (JS.trim editTitle)
         && negb (bool_decide (JS.trim editTitle = conv_title cc))
      then renameConversationAt (conv_id cc) (JS.trim editTitle)
      else mret tt
  | None => mret tt
  end.

(** What [axios.post] settles to: a rejection, or a response whose body
    [response.data] is there (an object, or a primitive, which has none of
    the three properties) or is missing ([null] or [undefined]). *)
Inductive Settlement :=
  | Fulfilled (body : option ResponseData)
  | Failed.

(** The path the second stretch takes.  Reading [response.data.response]
    of a missing body throws inside the [try] before any setter has run, and
    the [catch] takes over as for a rejection. *)
Definition outcomeOf (r : Settlement) : Outcome :=
  match r with
  | Fulfilled (Some data) => Resolved data
  | Fulfilled None => Rejected
  | Failed => Rejected
  end.

(** Every conversation of the list has a non-empty id and a non-empty
    title, and the current conversation a non-empty title. *)
Definition wellLabelled (a : AppState) : Prop :=
  (∀ c, c ∈ conversations a →
        (∃ i, conv_id c = Some i ∧ i ≠ "") ∧ conv_title c ≠ "")
  ∧ (∀ c, currentConversation a = Some c → conv_title c ≠ "").

End AppContext.

(** ** ChatPage: staging of attachments *)

Module ChatPage.

(** The blob URLs of the document that are live, and the allocator. *)
Record BlobStore := mkBlobStore {
  live : gset Url;
  next : Url
}.

Definition noBlobs : BlobStore := {| live := ∅; next := 0 |}.

(** [URL.createObjectURL(file)] *)
Definition createObjectURL (b : BlobStore) : Url * BlobStore :=
  (next b, {| live := {[ next b ]} ∪ live b; next := S (next b) |}).

(** [URL.revokeObjectURL(url)]: nothing happens for a URL that is not live. *)
Definition revokeObjectURL (u : Url) (b : BlobStore) : BlobStore :=
  {| live := live b ∖ {[ u ]}; next := next b |}.

Record PageState := mkPageState {
  input : string;
  attachedFiles : list Attachment;
  urls : BlobStore
}.

Definition emptyPage : PageState :=
  {| input := ""; attachedFiles := []; urls := noBlobs |}.

Definition maxSize : Z := 10 * 1024 * 1024.

(** [file.size > maxSize] is the rejection; the filter keeps the rest. *)
Definition valid (file : File) : Prop := ¬ (maxSize < file_size file)%Z.

Global Instance valid_dec file : Decision (valid file).
Proof. unfold valid. apply _. Defined.

(** [file.type.startsWith("image/")] *)
Definition isImage (type : string) : bool := JS.startsWith "image/" type.

(** [validFiles.map(file => ({ id, file, name, size, type, preview }))],
    every file coming with the id drawn for it; previews are allocated in
    the order of the files. *)
Fixpoint newFiles (validFiles : list (File * Z)) (b : BlobStore)
    : list Attachment * BlobStore :=
  match validFiles with
  | [] => ([], b)
  | (file, i) :: rest =>
      let '(preview, b1) :=
        if isImage (file_type file)
        then let '(u, b1) := createObjectURL b in (Some u, b1)
        else (None, b) in
      let '(atts, b2) := newFiles rest b1 in
      ({| att_id := i; att_file := file; att_name := file_name file;
          att_size := file_size file; att_type := file_type file;
          att_preview := preview |} :: atts, b2)
  end.

(** [handleFileSelect]: [selected] is [e.target.files], each file paired
    with the id that is drawn for it if it is kept. *)
Definition handleFileSelect (selected : list (File * Z))
    (st : PageState) : PageState :=
  let validFiles := filter (fun fi => valid (fst fi)) selected in
  let '(atts, b) := newFiles validFiles (urls st) in
  {| input := input st;
     attachedFiles := attachedFiles st ++ atts;
     urls := b |}.

Definition revokePreview (f : Attachment) (b : BlobStore) : BlobStore :=
  match att_preview f with
  | Some u => revokeObjectURL u b
  | None => b
  end.

(** [removeFile] *)
Definition removeFile (fileId : Z) (st : PageState) : PageState :=
  let prev := attachedFiles st in
  let fileToRemove := List.find (fun f => bool_decide (att_id f = fileId)) prev in
  {| input := input st;
     attachedFiles :=
       filter (fun f => att_id f ≠ fileId) prev;
     urls := match fileToRemove with
             | Some f => revokePreview f (urls st)
             | None => urls st
             end |}.

(** [filesToSend.forEach(file => file.preview && revoke)] *)
Definition revokeAll (files : list Attachment) (b : BlobStore) : BlobStore :=
  fold_left (fun b f => revokePreview f b) files b.

(** The cleanup of the page's mount effect: [attachedFilesRef.current]
    is the staged list of the last render. *)
Definition unmount (st : PageState) : BlobStore :=
  revokeAll (attachedFiles st) (urls st).

(** The icons shown for a file that has no preview. *)
Inductive Icon := ImageIcon | FileTextIcon | FileIcon.

(** [getFileIcon], used for the staged files. *)
Definition getFileIcon (fileType : string) : Icon :=
  if JS.startsWith "image/" fileType then ImageIcon
  else if bool_decide (fileType = "application/pdf") then FileTextIcon
  else FileIcon.

(** The icon of a file in a message bubble: the same three cases, tested
    in another order. *)
Definition messageFileIcon (type : string) : Icon :=
  if bool_decide (type = "application/pdf") then FileTextIcon
  else if JS.startsWith "image/" type then ImageIcon
  else FileIcon.

End ChatPage.

(** ** The page inside the provider *)

Module Session.
Import AppContext ChatPage.

Record World := mkWorld {
  app : AppState;
  page : PageState
}.

Definition start : World := {| app := initial; page := emptyPage |}.

(** A callback of the provider run from the page. *)
Definition onApp {A} (m : M A) (w : World) : World :=
  {| app := exec m (app w); page := page w |}.

(** A handler of the page that stays within the page. *)
Definition onPage (f : PageState -> PageState) (w : World) : World :=
  {| app := app w; page := f (page w) |}.

(** [handleSubmit] up to the [await] inside [sendMessage]. *)
Definition handleSubmit_begin (clk : Clock) (w : World)
    : option Pending * World :=
  let st := page w in
  if (JS.truthy (JS.trim (input st)) || bool_decide (0 < length (attachedFiles st)))
     && negb (isLoading (app w))
  then
    let messageToSend := input st in
    let filesToSend := attachedFiles st in
    let st' := {| input := ""; attachedFiles := [];
                  urls := revokeAll filesToSend (urls st) |} in
    let '(p, a) := sendMessage_begin clk messageToSend filesToSend (app w) in
    (p, {| app := a; page := st' |})
  else (None, w).

(** *** The event loop

    What runs, one synchronous stretch at a time: a callback of the
    provider, a handler of the page, the first stretch of a send, or the
    settlement of a request that is in flight. *)

Inductive Event :=
  | CreateNew (clk : Clock)
  | Select (conversationId : string)
  | Delete (conversationId : string)
  | Rename (conversationId newTitle : string)
  | ClearCurrent
  | ToggleSidebar
  | Typing (text : string)
  | Stage (selected : list (File * Z))
  | Unstage (fileId : Z)
  | Submit (clk : Clock)
  | Send (clk : Clock) (content : string) (files : list Attachment)
  | Settle (k : nat) (o : Outcome) (clkA clkC : Clock).

Record Machine := mkMachine {
  world : World;
  inflight : list Pending
}.

Definition boot : Machine := {| world := start; inflight := [] |}.

Definition suspend (p : option Pending) (l : list Pending) : list Pending :=
  match p with
  | Some p => l ++ [p]
  | None => l
  end.

Definition step (m : Machine) (e : Event) : Machine :=
  let w := world m in
  match e with
  | CreateNew clk =>
      {| world := onApp (createNewConversation clk) w; inflight := inflight m |}
  | Select i =>
      {| world := onApp (selectConversation i) w; inflight := inflight m |}
  | Delete i =>
      {| world := onApp (deleteConversation i) w; inflight := inflight m |}
  | Rename i t =>
      {| world := onApp (renameConversation i t) w; inflight := inflight m |}
  | ClearCurrent =>
      {| world := onApp clearCurrentConversation w; inflight := inflight m |}
  | ToggleSidebar =>
      {| world := onApp toggleSidebar w; inflight := inflight m |}
  | Typing text =>
      {| world := onPage (fun st => {| input := text;
                                       attachedFiles := attachedFiles st;
                                       urls := urls st |}) w;
         inflight := inflight m |}
  | Stage selected =>
      {| world := onPage (handleFileSelect selected) w; inflight := inflight m |}
  | Unstage i =>
      {| world := onPage (removeFile i) w; inflight := inflight m |}
  | Submit clk =>
      let '(p, w') := handleSubmit_begin clk w in
      {| world := w'; inflight := suspend p (inflight m) |}
  | Send clk content files =>
      let '(p, a) := sendMessage_begin clk content files (app w) in
      {| world := {| app := a; page := page w |};
         inflight := suspend p (inflight m) |}
  | Settle k o clkA clkC =>
      match inflight m !! k with
      | Some p =>
          {| world := onApp (sendMessage_settle p o clkA clkC) w;
             inflight := delete k (inflight m) |}
      | None => m
      end
  end.

Definition run (es : list Event) (m : Machine) : Machine :=
  fold_left step es m.

Definition reachable (m : Machine) : Prop := ∃ es, run es boot = m.

(** The current conversation, when it carries an id, carries the id of a
    conversation of the list. *)
Definition currentListed (a : AppState) : Prop :=
  ∀ c i, currentConversation a = Some c → conv_id c = Some i →
         Some i ∈ conv_id <$> conversations a.

(** The events that the components can raise: the chat page sends through
    its form only. *)
Definition uiEvent (e : Event) : bool :=
  match e with
  | Send _ _ _ => false
  | _ => true
  end.

(** The ids drawn are fresh: after every [Stage] of the trace the staged
    attachments have pairwise different ids. *)
Fixpoint freshStages (es : list Event) (m : Machine) : Prop :=
  match es with
  | [] => True
  | e :: es' =>
      match e with
      | Stage _ => NoDup (att_id <$> attachedFiles (page (world (step m e))))
      | _ => True
      end
      ∧ freshStages es' (step m e)
  end.

End Session.

(** ** Staging traces *)

Module Staging.
Import ChatPage.

Inductive Op :=
  | stage (selected : list (File * Z))
  | unstage (fileId : Z).

Definition apply (st : PageState) (o : Op) : PageState :=
  match o with
  | stage selected => handleFileSelect selected st
  | unstage fileId => removeFile fileId st
  end.

Definition runOps (os : list Op) (st : PageState) : PageState :=
  fold_left apply os st.

(** The ids drawn are fresh: after every [stage] of the trace the staged
    attachments have pairwise different ids. *)
Fixpoint freshIds (os : list Op) (st : PageState) : Prop :=
  match os with
  | [] => True
  | o :: os' =>
      match o with
      | stage _ => NoDup (att_id <$> attachedFiles (apply st o))
      | unstage _ => True
      end
      ∧ freshIds os' (apply st o)
  end.

(** Staged attachments whose media type is an image type. *)
Definition stagedImages (st : PageState) : list Attachment :=
  filter (fun f => isImage (att_type f)) (attachedFiles st).

(** The preview URLs that the staged attachments hold. *)
Definition previews (st : PageState) : list Url :=
  omap att_preview (attachedFiles st).

(** The state of the stage and of the blob store agree. *)
Record balanced (st : PageState) : Prop := mkBalanced {
  bal_ids : NoDup (att_id <$> attachedFiles st);
  bal_previews : NoDup (previews st);
  bal_live : live (urls st) = list_to_set (previews st);
  bal_next : ∀ u, u ∈ live (urls st) → u < next (urls st);
  bal_image : ∀ f, f ∈ attachedFiles st →
                   (is_Some (att_preview f) ↔ isImage (att_type f));
  bal_size : ∀ f, f ∈ attachedFiles st → ¬ (maxSize < att_size f)%Z
}.

End Staging.

(** ** DataPage: selection of a spreadsheet *)

Module DataPage.

Record DataState := mkDataState {
  file : option File;
  fileId : option string;
  fileMetadata : option string;
  previewData : option string;
  isUploading : bool;
  isDragging : bool;
  error : option string;
  uploadSuccess : bool
}.

(** The eight [useState] initial values. *)
Definition initialData : DataState :=
  {| file := None; fileId := None; fileMetadata := None; previewData := None;
     isUploading := false; isDragging := false; error := None;
     uploadSuccess := false |}.

Definition allowedTypes : list string := [".xlsx"; ".xls"; ".csv"].

(** [name.substring(name.lastIndexOf(".")).toLowerCase()] *)
Definition fileExtension (name : string) : string :=
  JS.toLowerCase (JS.substringAt (JS.lastIndexOf "." name) name).

Definition maxSize : Z := 50 * 1024 * 1024.

Definition invalidType : string :=
  "Invalid file type. Please upload .xlsx, .xls, or .csv files.".
Definition tooLarge : string := "File too large. Maximum size is 50MB.".
Definition disabled : string :=
  "Feature disabled: backend is turned off in UI-only mode.".

Definition handleFileSelect (selectedFile : File) (d : DataState) : DataState :=
  (* setError(null); setUploadSuccess(false) *)
  let d1 := {| file := file d; fileId := fileId d;
               fileMetadata := fileMetadata d; previewData := previewData d;
               isUploading := isUploading d; isDragging := isDragging d;
               error := None; uploadSuccess := false |} in
  if negb (bool_decide (fileExtension (file_name selectedFile) ∈ allowedTypes))
  then {| file := file d1; fileId := fileId d1;
          fileMetadata := fileMetadata d1; previewData := previewData d1;
          isUploading := isUploading d1; isDragging := isDragging d1;
          error := Some invalidType; uploadSuccess := uploadSuccess d1 |}
  else if bool_decide (maxSize < file_size selectedFile)%Z
  then {| file := file d1; fileId := fileId d1;
          fileMetadata := fileMetadata d1; previewData := previewData d1;
          isUploading := isUploading d1; isDragging := isDragging d1;
          error := Some tooLarge; uploadSuccess := uploadSuccess d1 |}
  else {| file := Some selectedFile; fileId := fileId d1;
          fileMetadata := fileMetadata d1; previewData := previewData d1;
          isUploading := isUploading d1; isDragging := isDragging d1;
          error := error d1; uploadSuccess := uploadSuccess d1 |}.

(** [handleUpload] up to the timer it starts. *)
Definition handleUpload (d : DataState) : DataState :=
  {| file := file d; fileId := fileId d;
     fileMetadata := fileMetadata d; previewData := previewData d;
     isUploading := true; isDragging := isDragging d;
     error := Some disabled; uploadSuccess := false |}.

(** The callback of the timer of [handleUpload]. *)
Definition uploadTimer (d : DataState) : DataState :=
  {| file := file d; fileId := fileId d;
     fileMetadata := fileMetadata d; previewData := previewData d;
     isUploading := false; isDragging := isDragging d;
     error := error d; uploadSuccess := uploadSuccess d |}.

Definition setIsDragging (b : bool) (d : DataState) : DataState :=
  {| file := file d; fileId := fileId d;
     fileMetadata := fileMetadata d; previewData := previewData d;
     isUploading := isUploading d; isDragging := b;
     error := error d; uploadSuccess := uploadSuccess d |}.

Definition handleDragOver : DataState -> DataState := setIsDragging true.
Definition handleDragLeave : DataState -> DataState := setIsDragging false.

(** [handleDrop]; [droppedFile] is [e.dataTransfer.files[0]]. *)
Definition handleDrop (droppedFile : option File) (d : DataState) : DataState :=
  match droppedFile with
  | Some f => handleFileSelect f (setIsDragging false d)
  | None => setIsDragging false d
  end.

(** [handleFileInputChange]; [selectedFile] is [e.target.files[0]]. *)
Definition handleFileInputChange (selectedFile : option File)
    (d : DataState) : DataState :=
  match selectedFile with
  | Some f => handleFileSelect f d
  | None => d
  end.

Definition handleReset (d : DataState) : DataState :=
  {| file := None; fileId := None; fileMetadata := None; previewData := None;
     isUploading := isUploading d; isDragging := isDragging d;
     error := None; uploadSuccess := false |}.

(** What happens on the page, one handler at a time. *)
Inductive DataEvent :=
  | FileInputChange (selectedFile : option File)
  | DragOver
  | DragLeave
  | Drop (droppedFile : option File)
  | Upload
  | UploadTimer
  | Reset.

Definition dataStep (d : DataState) (e : DataEvent) : DataState :=
  match e with
  | FileInputChange f => handleFileInputChange f d
  | DragOver => handleDragOver d
  | DragLeave => handleDragLeave d
  | Drop f => handleDrop f d
  | Upload => handleUpload d
  | UploadTimer => uploadTimer d
  | Reset => handleReset d
  end.

Definition dataRun (es : list DataEvent) (d : DataState) : DataState :=
  fold_left dataStep es d.

End DataPage.

(** ** Concrete inputs used by the examples *)

Module Sample.
Import AppContext ChatPage Session.

Definition t0 : Clock := mkClock 1700000000000 "2023-11-14T22:13:20.000Z".
Definition t1 : Clock := mkClock 1700000000250 "2023-11-14T22:13:20.250Z".
Definition t2 : Clock := mkClock 1700000000900 "2023-11-14T22:13:20.900Z".
Definition t3 : Clock := mkClock 1700000001400 "2023-11-14T22:13:21.400Z".

Definition png : File := mkFile "plot.png" 5 "image/png".
Definition pdf : File := mkFile "report.pdf" 2048 "application/pdf".
Definition csv : File := mkFile "table.csv" 640 "text/csv".
Definition huge : File := mkFile "scan.png" (11 * 1024 * 1024) "image/png".

Definition hi : ResponseData :=
  {| response := Some "hi"; message := None; conversation_id := Some "c1" |}.

(** 51 characters. *)
Definition longTitle : string :=
  "Quarterly network rollout review and budget notes 2".

(** 63 characters, the 50th being a space. *)
Definition longContent : string :=
  "Please summarise the attached quarterly fibre map for the board".

(** Four files selected at once, one of them over the limit; the last
    one removed again; a removal under an unknown id; one more file. *)
Definition staging : list Staging.Op :=
  [ Staging.stage [(png, 7001%Z); (pdf, 7002%Z); (huge, 7003%Z); (png, 7004%Z)];
    Staging.unstage 7004%Z;
    Staging.unstage 7999%Z;
    Staging.stage [(png, 7005%Z)] ].

(** Two staged files that are not images. *)
Definition twoDocs : list Attachment :=
  attachedFiles (handleFileSelect [(pdf, 7001%Z); (csv, 7002%Z)] emptyPage).

(** A first conversation, just created. *)
Definition oneChat : AppState := exec (createNewConversation t0) initial.

(** Two conversations, the older one current, a send in flight, and the
    newer one selected before the answer arrives. *)
Definition switched : Machine :=
  run [ CreateNew t0; CreateNew t1; Rename "1700000000250" "Budget";
        Select "1700000000000"; Send t2 "hello" [];
        Select "1700000000250" ] boot.

(** A send without a current conversation, and a conversation created
    before the answer arrives. *)
Definition overtaken : Machine :=
  run [ Send t0 "hello" []; CreateNew t1 ] boot.

(** A conversation created by a send of [longContent]. *)
Definition spaced : Machine :=
  run [ Send t2 longContent []; Settle 0 (Resolved hi) t3 t3 ] boot.

(** A second conversation, current, with one exchange in the log. *)
Definition busy : AppState :=
  exec (createNewConversation t1 ;;
        sendMessage t2 "Which sites are live?" [] (Resolved hi) t3 t3) oneChat.

End Sample.

(** * Properties *)

Import AppContext ChatPage Session.

(** ** Strings *)

Section Strings.

Lemma truthy_true (s : string) : JS.truthy s = true ↔ s ≠ "".
Proof.
  unfold JS.truthy. rewrite negb_true_iff, bool_decide_eq_false. done.
Qed.

Lemma truthy_false (s : string) : JS.truthy s = false ↔ s = "".
Proof.
  unfold JS.truthy. rewrite negb_false_iff, bool_decide_eq_true. done.
Qed.

Lemma slice0_length (n : nat) (s : string) : String.length (JS.slice0 n s) ≤ n.
Proof.
  revert s. induction n as [|n IH]; intros [|c r]; simpl; try lia.
  specialize (IH r). lia.
Qed.

Lemma slice0_empty (n : nat) (s : string) : JS.slice0 (S n) s = "" ↔ s = "".
Proof. destruct s; simpl; split; congruence. Qed.

Lemma orElse_Some (s d : string) :
  JS.orElse (Some s) d = if bool_decide (s = "") then d else s.
Proof. unfold JS.orElse, JS.truthy. by destruct (bool_decide (s = "")). Qed.

End Strings.

(** ** The user message *)

Section UserMessage.

(** Whenever the send goes through, the content of the user message is
    the file count sentence, whatever the text. *)
Lemma userContent_sent (content : string) (files : list Attachment) :
  JS.trim content ≠ "" ∨ files ≠ [] →
  userContent content files = "Sent " +:+ pretty (length files) +:+ " file(s)".
Proof.
  intros Hpre. unfold userContent.
  destruct Hpre as [Ht | Hf].
  - apply truthy_true in Ht. by rewrite Ht.
  - destruct files as [|f files]; [done |].
    rewrite bool_decide_eq_true_2 by (simpl; lia).
    by rewrite orb_true_r.
Qed.

(** C1: the user message appended by a send of the text "hello" without
    files holds the content "Sent 0 file(s)", not the trimmed text. *)
Theorem sendMessage_text_only_content :
  JS.trim "hello" = "hello"
  ∧ result (sendMessage_begin Sample.t0 "hello" []) initial ≠ None
  ∧ msg_content <$> messages (exec (sendMessage_begin Sample.t0 "hello" []) initial)
    = ["Sent 0 file(s)"].
Proof. split; [reflexivity | split; [discriminate | reflexivity]]. Qed.

End UserMessage.

(** ** createNewConversation and selectConversation *)

Section Store.

Lemma pretty_now_inj (a b : Clock) :
  pretty (now a) = pretty (now b) → now a = now b.
Proof. apply (inj pretty). Qed.

(** C3 (as stated) fails: a call yields no value, so it does not return
    the identity it has just given to the new conversation. *)
Lemma createNewConversation_returns_nothing :
  result (createNewConversation Sample.t0) initial
  ≠ head (conversations (exec (createNewConversation Sample.t0) initial))
      ≫= conv_id.
Proof. discriminate. Qed.

(** Two calls within one millisecond give both conversations one id. *)
Example createNewConversation_same_millisecond :
  conv_id <$> conversations
    (exec (createNewConversation Sample.t0 ;; createNewConversation Sample.t0) initial)
  = [Some "1700000000000"; Some "1700000000000"].
Proof. reflexivity. Qed.

(** C3 (amended): [createNewConversation] puts a conversation titled
    "New Chat", stamped with the clock, at the front of the list, makes it
    current, empties the log and yields no value; a second call puts its
    conversation before the first, current, with an empty log, and the two
    ids differ whenever the two clock readings differ. *)
Theorem createNewConversation_twice (clk1 clk2 : Clock) (s : AppState) :
  now clk1 ≠ now clk2 →
  let c1 := {| conv_id := Some (pretty (now clk1)); conv_title := "New Chat";
               conv_createdAt := Some (iso clk1) |} in
  let c2 := {| conv_id := Some (pretty (now clk2)); conv_title := "New Chat";
               conv_createdAt := Some (iso clk2) |} in
  let s1 := exec (createNewConversation clk1) s in
  let s2 := exec (createNewConversation clk2) s1 in
  (conversations s1 = c1 :: conversations s
   ∧ currentConversation s1 = Some c1
   ∧ messages s1 = []
   ∧ result (createNewConversation clk1) s = None)
  ∧ (conversations s2 = c2 :: c1 :: conversations s
     ∧ currentConversation s2 = Some c2
     ∧ messages s2 = []
     ∧ conv_id c2 ≠ conv_id c1).
Proof.
  intros Hclk. simpl. repeat split.
  intros Heq. apply Hclk. symmetry. apply pretty_now_inj. congruence.
Qed.

Lemma createNewConversation_twice_witness :
  conv_id <$> conversations
    (exec (createNewConversation Sample.t1) (exec (createNewConversation Sample.t0) initial))
  = [Some "1700000000250"; Some "1700000000000"].
Proof.
  assert (Hne : now Sample.t0 ≠ now Sample.t1) by discriminate.
  destruct (createNewConversation_twice Sample.t0 Sample.t1 initial Hne)
    as [_ [Hlist _]].
  rewrite Hlist. reflexivity.
Defined.

(** C10: selecting an id of the list makes the first conversation with
    that id current and leaves the log empty, whatever it held; the list
    is as before. *)
Theorem selectConversation_empties_log (conversationId : string) (s : AppState) :
  (∃ c, c ∈ conversations s ∧ conv_id c = Some conversationId) →
  let s' := exec (selectConversation conversationId) s in
  (∃ c, c ∈ conversations s ∧ conv_id c = Some conversationId
        ∧ currentConversation s' = Some c)
  ∧ messages s' = []
  ∧ conversations s' = conversations s.
Proof.
  intros (c & Hin & Hid). simpl.
  unfold exec, selectConversation, mbind, M_bind, render.
  destruct (List.find (hasId conversationId) (conversations s)) as [c'|] eqn:Hfind.
  - apply List.find_some in Hfind as [Hin' Hid'].
    unfold hasId in Hid'. apply bool_decide_eq_true in Hid'.
    split; [| done].
    exists c'. by rewrite list_elem_of_In.
  - exfalso. apply list_elem_of_In in Hin.
    pose proof (List.find_none _ _ Hfind c Hin) as Hno.
    unfold hasId in Hno. apply bool_decide_eq_false in Hno. done.
Qed.

Lemma selectConversation_empties_log_witness :
  messages Sample.busy ≠ []
  ∧ messages (exec (selectConversation "1700000000000") Sample.busy) = [].
Proof.
  split; [discriminate |].
  refine (proj1 (proj2 (selectConversation_empties_log "1700000000000" Sample.busy _))).
  exists {| conv_id := Some "1700000000000"; conv_title := "New Chat";
            conv_createdAt := Some (iso Sample.t0) |}.
  split; [| reflexivity].
  apply list_elem_of_further, list_elem_of_here.
Defined.

End Store.

(** ** The two stretches of a send *)

Section Dispatch.

Lemma sendMessage_begin_sendable clk content files s :
  sendable content files →
  sendMessage_begin clk content files s
  = (Some (suspended content files s),
     {| conversations := conversations s;
        currentConversation := currentConversation s;
        messages := messages s ++ [userMessage clk content files];
        isLoading := true;
        sidebarOpen := sidebarOpen s |}).
Proof.
  intros Hpre. unfold sendMessage_begin, mbind, M_bind, render.
  assert (negb (JS.truthy (JS.trim content)) && bool_decide (length files = 0)
          = false) as ->; [| done].
  destruct Hpre as [Ht | Hf].
  - apply truthy_true in Ht. by rewrite Ht.
  - destruct files; [done |]. apply andb_false_r.
Qed.

Lemma sendMessage_begin_empty clk content s :
  JS.trim content = "" → sendMessage_begin clk content [] s = (None, s).
Proof.
  intros Ht. unfold sendMessage_begin, mbind, M_bind, render.
  apply truthy_false in Ht. by rewrite Ht.
Qed.

(** A send that goes through is its settlement run on the state its first
    stretch leaves. *)
Lemma sendMessage_sendable clk content files o clkA clkC s :
  sendable content files →
  exec (sendMessage clk content files o clkA clkC) s
  = exec (sendMessage_settle (suspended content files s) o clkA clkC)
      {| conversations := conversations s;
         currentConversation := currentConversation s;
         messages := messages s ++ [userMessage clk content files];
         isLoading := true;
         sidebarOpen := sidebarOpen s |}.
Proof.
  intros Hpre. unfold exec, sendMessage, mbind at 1, M_bind at 1.
  by rewrite (sendMessage_begin_sendable _ _ _ _ Hpre).
Qed.

(** The failure path, whatever the state the rejection finds. *)
Lemma sendMessage_settle_rejected p clkA clkC s :
  exec (sendMessage_settle p Rejected clkA clkC) s
  = {| conversations := conversations s;
       currentConversation := currentConversation s;
       messages := messages s ++ [errorMessage clkA];
       isLoading := false;
       sidebarOpen := sidebarOpen s |}.
Proof. reflexivity. Qed.

(** C7: a send whose request fails appends, after the user message, one
    message and no more: the assistant's apology flagged as an error; the
    list of conversations and the current conversation are as before the
    send and the loading flag is false again.  The settlement alone does
    the same to whatever state the rejection finds. *)
Theorem sendMessage_failure clk clkA clkC content files (s : AppState) :
  sendable content files →
  let s' := exec (sendMessage clk content files Rejected clkA clkC) s in
  (messages s' = messages s ++ [userMessage clk content files; errorMessage clkA]
   ∧ conversations s' = conversations s
   ∧ currentConversation s' = currentConversation s
   ∧ isLoading s' = false)
  ∧ (msg_role (errorMessage clkA) = assistant
     ∧ msg_content (errorMessage clkA)
       = "Sorry, I encountered an error. Please try again."
     ∧ msg_error (errorMessage clkA) = true)
  ∧ (∀ p arrival,
       let settled := exec (sendMessage_settle p Rejected clkA clkC) arrival in
       messages settled = messages arrival ++ [errorMessage clkA]
       ∧ conversations settled = conversations arrival
       ∧ currentConversation settled = currentConversation arrival
       ∧ isLoading settled = false).
Proof.
  intros Hpre s'. subst s'. split; [| split; [done |]].
  - rewrite (sendMessage_sendable _ _ _ _ _ _ _ Hpre).
    rewrite sendMessage_settle_rejected. simpl.
    by rewrite <- app_assoc.
  - intros p arrival settled. subst settled.
    by rewrite sendMessage_settle_rejected.
Qed.

Lemma sendMessage_failure_witness :
  let s' := exec (sendMessage Sample.t2 "Which sites are live?" [] Rejected
                    Sample.t3 Sample.t3) Sample.oneChat in
  msg_error <$> messages s' = [false; true]
  ∧ conversations s' = conversations Sample.oneChat
  ∧ currentConversation s' = currentConversation Sample.oneChat
  ∧ isLoading s' = false.
Proof.
  assert (Hpre : sendable "Which sites are live?" []) by (left; discriminate).
  destruct (sendMessage_failure Sample.t2 Sample.t3 Sample.t3
              "Which sites are live?" [] Sample.oneChat Hpre)
    as [(Hm & Hc & Hcur & Hl) _].
  cbv zeta. rewrite Hm.
  split; [reflexivity |]. split; [exact Hc |]. split; [exact Hcur | exact Hl].
Defined.

(** *** The success path *)

Lemma derivedTitle_cases content files :
  derivedTitle content files
  = if bool_decide (JS.trim content = "")
    then "Chat with " +:+ pretty (length files) +:+ " file(s)"
    else JS.slice0 50 (JS.trim content).
Proof.
  unfold derivedTitle. rewrite orElse_Some.
  destruct (decide (JS.trim content = "")) as [Ht | Ht].
  - rewrite Ht. reflexivity.
  - rewrite (bool_decide_eq_false_2 (JS.trim content = "")) by done.
    rewrite bool_decide_eq_false_2; [done |].
    by rewrite slice0_empty.
Qed.


(** The call was made without a current conversation. *)
Lemma sendMessage_settle_creates p data clkA clkC s :
  p_currentConversation p = None →
  let newConversation :=
    {| conv_id := Some (JS.orElse (conversation_id data) (pretty (now clkC)));
       conv_title := derivedTitle (p_content p) (p_files p);
       conv_createdAt := Some (iso clkC) |} in
  exec (sendMessage_settle p (Resolved data) clkA clkC) s
  = {| conversations := newConversation :: conversations s;
       currentConversation := Some newConversation;
       messages := messages s ++ [assistantMessage clkA data];
       isLoading := false;
       sidebarOpen := sidebarOpen s |}.
Proof.
  intros Hcc. unfold exec, sendMessage_settle.
  rewrite Hcc. reflexivity.
Qed.

(** The cut [slice(0, n)] is the prefix of [n] code units, or the whole
    string when it is shorter. *)
Lemma slice0_length_min (n : nat) (s : string) :
  String.length (JS.slice0 n s) = n `min` String.length s.
Proof.
  revert s. induction n as [| n IH]; intros [| c r]; simpl; try done.
  by rewrite IH.
Qed.

Lemma slice0_prefix (n : nat) (s : string) : ∃ rest, s = JS.slice0 n s +:+ rest.
Proof.
  revert s. induction n as [| n IH]; intros [| c r]; simpl; eauto.
  destruct (IH r) as [rest Hrest]. exists rest.
  change (String c r = String c (JS.slice0 n r +:+ rest)). by f_equal.
Qed.

(** The derived title, without naming the cut: the file count sentence for
    a text that trims to nothing, and otherwise the prefix of the trimmed
    text that has 50 code units, or all of it when it has fewer. *)
Lemma derivedTitle_first_50 content files :
  (JS.trim content = "" →
   derivedTitle content files
   = "Chat with " +:+ pretty (length files) +:+ " file(s)")
  ∧ (JS.trim content ≠ "" →
     String.length (derivedTitle content files)
     = 50 `min` String.length (JS.trim content)
     ∧ ∃ rest, JS.trim content = derivedTitle content files +:+ rest).
Proof.
  rewrite derivedTitle_cases. split.
  - intros Ht. by rewrite (bool_decide_eq_true_2 _ Ht).
  - intros Ht. rewrite (bool_decide_eq_false_2 _ Ht).
    split; [apply slice0_length_min | apply slice0_prefix].
Qed.



(** C6: a successful send made while no conversation is current creates
    a conversation, puts it at the front of the list and makes it current;
    its id is the [conversation_id] of the answer when the answer has one
    (the empty string counting as none) and the decimal clock reading
    otherwise; its title follows the derivation rule: the first 50
    characters of the trimmed text (a prefix of it, 50 code units long or
    the whole of a shorter text), or "Chat with N file(s)" when the trimmed
    text is empty; the log gains the user message and then the
    assistant's.  The conversation is created and made current whatever has
    run before the answer arrives. *)
Theorem sendMessage_without_current_creates
    clk clkA clkC content files data (s : AppState) :
  currentConversation s = None →
  sendable content files →
  let s' := exec (sendMessage clk content files (Resolved data) clkA clkC) s in
  let newId :=
    match conversation_id data with
    | Some i => if bool_decide (i = "") then pretty (now clkC) else i
    | None => pretty (now clkC)
    end in
  ∃ newTitle,
    (JS.trim content = "" →
     newTitle = "Chat with " +:+ pretty (length files) +:+ " file(s)")
    ∧ (JS.trim content ≠ "" →
       String.length newTitle = 50 `min` String.length (JS.trim content)
       ∧ ∃ rest, JS.trim content = newTitle +:+ rest)
    ∧ let newConversation :=
        {| conv_id := Some newId; conv_title := newTitle;
           conv_createdAt := Some (iso clkC) |} in
      conversations s' = newConversation :: conversations s
      ∧ currentConversation s' = Some newConversation
      ∧ messages s'
        = messages s ++ [userMessage clk content files; assistantMessage clkA data]
      ∧ msg_role (userMessage clk content files) = user
      ∧ msg_role (assistantMessage clkA data) = assistant
      ∧ (∀ arrival,
           let settled :=
             exec (sendMessage_settle (suspended content files s) (Resolved data)
                     clkA clkC) arrival in
           conversations settled = newConversation :: conversations arrival
           ∧ currentConversation settled = Some newConversation).
Proof.
  intros Hcur Hpre s' newId. subst s'.
  exists (derivedTitle content files).
  destruct (derivedTitle_first_50 content files) as [Hnone Htext].
  split; [exact Hnone |]. split; [exact Htext |].
  intros newConversation.
  assert (JS.orElse (conversation_id data) (pretty (now clkC)) = newId) as Hid.
  { unfold newId. destruct (conversation_id data); [| done].
    apply orElse_Some. }
  assert (∀ arrival,
            exec (sendMessage_settle (suspended content files s) (Resolved data)
                    clkA clkC) arrival
            = {| conversations := newConversation :: conversations arrival;
                 currentConversation := Some newConversation;
                 messages := messages arrival ++ [assistantMessage clkA data];
                 isLoading := false;
                 sidebarOpen := sidebarOpen arrival |}) as Hsettle.
  { intros arrival. rewrite sendMessage_settle_creates by done. simpl.
    by rewrite Hid. }
  rewrite (sendMessage_sendable _ _ _ _ _ _ _ Hpre), Hsettle.
  split; [done |]. split; [done |].
  split; [by simpl; rewrite <- app_assoc |].
  split; [done |]. split; [done |].
  intros arrival settled. subst settled. by rewrite Hsettle.
Qed.

(** The example of the claim (no conversation yet, the answer is
    [{response: "hi", conversation_id: "c1"}]), and a text of 63
    characters, of which the title keeps 50. *)
Lemma sendMessage_without_current_creates_witness :
  let s' := exec (sendMessage Sample.t2 " Which sites are live? " []
                    (Resolved Sample.hi) Sample.t3 Sample.t3) initial in
  let sL := exec (sendMessage Sample.t2 Sample.longContent []
                    (Resolved Sample.hi) Sample.t3 Sample.t3) initial in
  (conversations s'
   = [ {| conv_id := Some "c1"; conv_title := "Which sites are live?";
          conv_createdAt := Some (iso Sample.t3) |} ]
   ∧ msg_role <$> messages s' = [user; assistant])
  ∧ String.length (JS.trim Sample.longContent) = 63
  ∧ ∃ title, conversations sL
             = [ {| conv_id := Some "c1"; conv_title := title;
                    conv_createdAt := Some (iso Sample.t3) |} ]
             ∧ String.length title = 50
             ∧ title = "Please summarise the attached quarterly fibre map ".
Proof.
  assert (Hpre : sendable " Which sites are live? " []) by (left; discriminate).
  assert (HpreL : sendable Sample.longContent []) by (left; discriminate).
  destruct (sendMessage_without_current_creates Sample.t2 Sample.t3 Sample.t3
              " Which sites are live? " [] Sample.hi initial eq_refl Hpre)
    as (title & _ & Htext & Hlist & _ & Hlog & _).
  destruct (sendMessage_without_current_creates Sample.t2 Sample.t3 Sample.t3
              Sample.longContent [] Sample.hi initial eq_refl HpreL)
    as (titleL & _ & HtextL & HlistL & _).
  cbv zeta. split; [| split; [reflexivity |]].
  - rewrite Hlog. split; [| reflexivity].
    cbv zeta in Hlist. vm_compute in Hlist. vm_compute. exact eq_refl.
  - exists titleL. rewrite HlistL.
    assert (JS.trim Sample.longContent ≠ "") as Hne by discriminate.
    destruct (HtextL Hne) as [Hlen _].
    split; [reflexivity |]. split; [exact Hlen |].
    cbv zeta in HlistL. vm_compute in HlistL. by injection HlistL as <-.
Defined.

End Dispatch.

(** ** Requests in flight and the current conversation *)

Section Stale.

(** C2: with conversation A ("New Chat", empty log) current, a send of
    "hello" is issued and conversation B ("Budget") is selected before the
    answer arrives.  The settlement decides on A, the conversation of the
    call: A is retitled in the list, and the current conversation B is
    given A's new title while the list keeps "Budget" for it. *)
Theorem sendMessage_settles_on_call_time_conversation :
  let arrival := app (world Sample.switched) in
  let settled :=
    app (world (step Sample.switched
                  (Settle 0 (Resolved Sample.hi) Sample.t3 Sample.t3))) in
  currentConversation arrival
  = Some {| conv_id := Some "1700000000250"; conv_title := "Budget";
            conv_createdAt := Some (iso Sample.t1) |}
  ∧ conversations settled
    = [ {| conv_id := Some "1700000000250"; conv_title := "Budget";
           conv_createdAt := Some (iso Sample.t1) |};
        {| conv_id := Some "1700000000000"; conv_title := "hello";
           conv_createdAt := Some (iso Sample.t0) |} ]
  ∧ currentConversation settled
    = Some {| conv_id := Some "1700000000250"; conv_title := "hello";
              conv_createdAt := Some (iso Sample.t1) |}.
Proof. repeat split. Qed.

(** The same with no conversation at the call and one created before the
    answer arrives: the settlement still creates a conversation and makes
    it current. *)
Example sendMessage_settles_on_call_time_absence :
  let settled :=
    app (world (step Sample.overtaken
                  (Settle 0 (Resolved Sample.hi) Sample.t2 Sample.t2))) in
  conv_id <$> currentConversation (app (world Sample.overtaken))
  = Some (Some "1700000000250")
  ∧ conv_id <$> conversations settled = [Some "c1"; Some "1700000000250"]
  ∧ conv_id <$> currentConversation settled = Some (Some "c1").
Proof. repeat split. Qed.

End Stale.

(** ** Length of titles *)

Section Titles.

Lemma createNewConversation_title_length clk s c :
  currentConversation (exec (createNewConversation clk) s) = Some c →
  String.length (conv_title c) ≤ 50.
Proof. intros [= <-]. simpl. lia. Qed.

Lemma derivedTitle_text_length content files :
  JS.trim content ≠ "" → String.length (derivedTitle content files) ≤ 50.
Proof.
  intros Ht. rewrite derivedTitle_cases.
  rewrite bool_decide_eq_false_2 by done. apply slice0_length.
Qed.

(** No path of [renameConversation] shortens the title: the current
    conversation, when it has the id, is given the trimmed title whole. *)
Lemma renameConversation_stores_trimmed conversationId newTitle c s :
  JS.trim newTitle ≠ "" →
  currentConversation s = Some c → conv_id c = Some conversationId →
  currentConversation (exec (renameConversation conversationId newTitle) s)
  = Some (withTitle c (JS.trim newTitle)).
Proof.
  intros Ht Hc Hid. unfold exec, renameConversation, mbind, M_bind, render.
  apply truthy_true in Ht. rewrite Ht, Hc. simpl.
  unfold hasId. rewrite bool_decide_eq_true_2 by done. simpl.
  by rewrite Hc.
Qed.

(** C4: renaming a conversation to a title of 51 characters, which the
    inline editor of the sidebar lets through, stores the 51 characters
    in the list and in the current conversation. *)
Theorem renameConversation_stores_long_title :
  let s := exec (renameConversation "1700000000000" Sample.longTitle)
             Sample.oneChat in
  String.length Sample.longTitle = 51
  ∧ conv_title <$> conversations s = [Sample.longTitle]
  ∧ conv_title <$> currentConversation s = Some Sample.longTitle.
Proof. repeat split. Qed.

End Titles.

(** ** The current conversation is a conversation of the list *)

Section CurrentListed.

Lemma currentListed_initial : currentListed initial.
Proof. intros c i [=]. Qed.

Lemma currentListed_createNew clk a :
  currentListed (exec (createNewConversation clk) a).
Proof.
  intros c i [= <-] Hid. simpl in *. rewrite <- Hid. apply list_elem_of_here.
Qed.

Lemma currentListed_select conversationId a :
  currentListed a → currentListed (exec (selectConversation conversationId) a).
Proof.
  intros Hwf. unfold exec, selectConversation, mbind, M_bind, render.
  destruct (List.find _ _) as [c'|] eqn:Hfind; [| exact Hwf].
  intros c i [= <-] Hid. simpl.
  apply List.find_some in Hfind as [Hin _].
  apply list_elem_of_fmap. exists c'. by rewrite list_elem_of_In.
Qed.

Lemma currentHasId_true conversationId cur :
  currentHasId conversationId cur = true ↔
  ∃ c, cur = Some c ∧ conv_id c = Some conversationId.
Proof.
  destruct cur as [c|]; simpl; unfold hasId.
  - rewrite bool_decide_eq_true. naive_solver.
  - naive_solver.
Qed.

Lemma currentListed_delete conversationId a :
  currentListed a → currentListed (exec (deleteConversation conversationId) a).
Proof.
  intros Hwf. unfold exec, deleteConversation, mbind, M_bind, render.
  destruct (currentHasId conversationId (currentConversation a)) eqn:Hcur; simpl.
  - intros c i [=].
  - intros c i Hc Hid. simpl in *.
    specialize (Hwf c i Hc Hid).
    apply list_elem_of_fmap in Hwf as (c' & Hid' & Hin).
    apply list_elem_of_fmap. exists c'. split; [done |].
    apply list_elem_of_filter. split; [| done].
    intros Heq. apply not_true_iff_false in Hcur. apply Hcur.
    apply currentHasId_true. exists c. split; [done |]. congruence.
Qed.

Lemma retitle_ids (P : Conversation → bool) t (l : list Conversation) :
  conv_id <$> ((fun c => if P c then withTitle c t else c) <$> l) = conv_id <$> l.
Proof.
  rewrite <- list_fmap_compose. apply list_fmap_ext.
  intros _ c _. simpl. by destruct (P c).
Qed.

Lemma spreadTitle_id cur t c i :
  Some (spreadTitle cur t) = Some c → conv_id c = Some i →
  ∃ c0, cur = Some c0 ∧ conv_id c0 = Some i.
Proof.
  intros [= <-]. destruct cur as [c0|]; simpl; [eauto | discriminate].
Qed.

Lemma currentListed_rename conversationId newTitle a :
  currentListed a →
  currentListed (exec (renameConversation conversationId newTitle) a).
Proof.
  intros Hwf. unfold exec, renameConversation, mbind, M_bind, render.
  destruct (negb (JS.truthy (JS.trim newTitle))); [exact Hwf |].
  destruct (currentHasId conversationId (currentConversation a)); simpl.
  - intros c i Hc Hid. simpl in *. rewrite retitle_ids.
    destruct (spreadTitle_id _ _ _ _ Hc Hid) as (c0 & Hc0 & Hid0). eauto.
  - intros c i Hc Hid. simpl in *. rewrite retitle_ids. eauto.
Qed.

Lemma currentListed_begin clk content files a :
  currentListed a → currentListed (sendMessage_begin clk content files a).2.
Proof.
  intros Hwf. unfold sendMessage_begin, mbind, M_bind, render.
  by destruct (_ && _).
Qed.

Lemma currentListed_settle p o clkA clkC a :
  currentListed a → currentListed (exec (sendMessage_settle p o clkA clkC) a).
Proof.
  intros Hwf. unfold exec, sendMessage_settle.
  destruct o as [data|]; [| exact Hwf].
  destruct (p_currentConversation p) as [cc|]; simpl.
  - destruct (_ && _); simpl; [| exact Hwf].
    intros c i Hc Hid. simpl in *. rewrite retitle_ids.
    destruct (spreadTitle_id _ _ _ _ Hc Hid) as (c0 & Hc0 & Hid0). eauto.
  - intros c i [= <-] Hid. simpl in *. rewrite <- Hid. apply list_elem_of_here.
Qed.

Lemma currentListed_step m e :
  currentListed (app (world m)) → currentListed (app (world (step m e))).
Proof.
  intros Hwf. destruct e; simpl; try exact Hwf.
  - apply currentListed_createNew.
  - by apply currentListed_select.
  - by apply currentListed_delete.
  - by apply currentListed_rename.
  - intros c i [=].
  - unfold handleSubmit_begin. destruct (_ && _); [| exact Hwf].
    pose proof (currentListed_begin clk (input (page (world m)))
                  (attachedFiles (page (world m))) _ Hwf) as Hb.
    by destruct (sendMessage_begin _ _ _ _).
  - pose proof (currentListed_begin clk content files _ Hwf) as Hb.
    by destruct (sendMessage_begin _ _ _ _).
  - destruct (inflight m !! k); [| exact Hwf].
    by apply currentListed_settle.
Qed.

Lemma run_snoc es e m : run (es ++ [e]) m = step (run es m) e.
Proof. unfold run. by rewrite fold_left_app. Qed.

(** In every state the event loop reaches. *)
Lemma reachable_currentListed m : reachable m → currentListed (app (world m)).
Proof.
  intros [es <-]. induction es as [| e es IH] using rev_ind.
  - exact currentListed_initial.
  - rewrite run_snoc. by apply currentListed_step.
Qed.

End CurrentListed.

(** ** Calls that change nothing *)

Section NoOps.

Lemma withTitle_same c : withTitle c (conv_title c) = c.
Proof. by destruct c. Qed.

Lemma retitle_same (P : Conversation → bool) t (l : list Conversation) :
  (∀ c, c ∈ l → P c = true → conv_title c = t) →
  (fun c => if P c then withTitle c t else c) <$> l = l.
Proof.
  intros Hall. induction l as [| c l IH]; [done |].
  rewrite fmap_cons. f_equal.
  - destruct (P c) eqn:HP; [| done].
    rewrite <- (Hall c); [apply withTitle_same | apply list_elem_of_here | done].
  - apply IH. intros c' Hin. apply Hall. by apply list_elem_of_further.
Qed.

Lemma filter_keeps_all {A} (P : A → Prop) `{!∀ x, Decision (P x)} (l : list A) :
  (∀ x, x ∈ l → P x) → filter P l = l.
Proof.
  intros Hall. induction l as [| x l IH]; [done |].
  rewrite filter_cons_True by (apply Hall, list_elem_of_here).
  f_equal. apply IH. intros y Hy. by apply Hall, list_elem_of_further.
Qed.

Lemma renameConversation_blank conversationId newTitle a :
  JS.trim newTitle = "" →
  exec (renameConversation conversationId newTitle) a = a.
Proof.
  intros Ht. unfold exec, renameConversation, mbind, M_bind, render.
  apply truthy_false in Ht. by rewrite Ht.
Qed.

Lemma renameConversation_same_title conversationId newTitle a :
  (∀ c, c ∈ conversations a → conv_id c = Some conversationId →
        conv_title c = JS.trim newTitle) →
  (∀ c, currentConversation a = Some c → conv_id c = Some conversationId →
        conv_title c = JS.trim newTitle) →
  exec (renameConversation conversationId newTitle) a = a.
Proof.
  intros Hlist Hcur. unfold exec, renameConversation, mbind, M_bind, render.
  destruct (negb (JS.truthy (JS.trim newTitle))); [done |].
  assert ((fun c => if hasId conversationId c
                    then withTitle c (JS.trim newTitle) else c)
            <$> conversations a = conversations a) as Hmap.
  { apply retitle_same. intros c Hin Hid. apply Hlist; [done |].
    unfold hasId in Hid. by apply bool_decide_eq_true in Hid. }
  destruct (currentHasId conversationId (currentConversation a)) eqn:Hhas;
    simpl; rewrite Hmap.
  - apply currentHasId_true in Hhas as (c & Hc & Hid).
    rewrite Hc. simpl. rewrite <- (Hcur c Hc Hid), withTitle_same, <- Hc.
    by destruct a.
  - by destruct a.
Qed.

Lemma deleteConversation_absent conversationId a :
  currentListed a →
  (∀ c, c ∈ conversations a → conv_id c ≠ Some conversationId) →
  exec (deleteConversation conversationId) a = a.
Proof.
  intros Hwf Habs. unfold exec, deleteConversation, mbind, M_bind, render.
  destruct (currentHasId conversationId (currentConversation a)) eqn:Hhas.
  - exfalso. apply currentHasId_true in Hhas as (c & Hc & Hid).
    specialize (Hwf c conversationId Hc Hid).
    apply list_elem_of_fmap in Hwf as (c' & Hid' & Hin).
    by apply (Habs c' Hin).
  - simpl. rewrite filter_keeps_all by done. by destruct a.
Qed.

Lemma removeFile_absent fileId st :
  (∀ f, f ∈ attachedFiles st → att_id f ≠ fileId) →
  removeFile fileId st = st.
Proof.
  intros Habs. unfold removeFile.
  rewrite filter_keeps_all by done.
  destruct (List.find _ _) as [f|] eqn:Hfind.
  - exfalso. apply List.find_some in Hfind as [Hin Hid].
    apply bool_decide_eq_true in Hid.
    apply (Habs f); [by apply list_elem_of_In | done].
  - by destruct st.
Qed.

(** C8 (as stated) fails: the conversation created by a send of
    [Sample.longContent] is titled with its first 50 characters, the last
    of which is a space; renaming it to the title it has trims that title
    to 49 characters. *)
Lemma renameConversation_to_own_title_trims :
  let own := "Please summarise the attached quarterly fibre map " in
  conv_title <$> conversations (app (world Sample.spaced)) = [own]
  ∧ conv_id <$> conversations (app (world Sample.spaced)) = [Some "c1"]
  ∧ conv_title <$> conversations
      (app (world (step Sample.spaced (Rename "c1" own))))
    = ["Please summarise the attached quarterly fibre map"]
  ∧ step Sample.spaced (Rename "c1" own) ≠ Sample.spaced.
Proof.
  split; [reflexivity |]. split; [reflexivity |]. split; [reflexivity |].
  intros Heq.
  apply (f_equal (fun m => conv_title <$> conversations (app (world m)))) in Heq.
  vm_compute in Heq. discriminate Heq.
Qed.

(** C8 (amended): these calls leave the whole state as it is, that of the
    provider, that of the page and the requests in flight:
    a rename whose trimmed title is empty; a rename whose trimmed title is
    the title that the conversations of that id already have, in the list
    and as the current conversation; in a reachable state, a delete of an
    id that no conversation of the list has; the removal of a staged file
    under an id that no staged file has; a send of a text that trims to
    nothing without files, be it the provider's call or the submission of
    the form. *)
Theorem invalid_calls_change_nothing (m : Machine) :
  (∀ conversationId newTitle,
      JS.trim newTitle = "" → step m (Rename conversationId newTitle) = m)
  ∧ (∀ conversationId newTitle,
      (∀ c, c ∈ conversations (app (world m)) →
            conv_id c = Some conversationId → conv_title c = JS.trim newTitle) →
      (∀ c, currentConversation (app (world m)) = Some c →
            conv_id c = Some conversationId → conv_title c = JS.trim newTitle) →
      step m (Rename conversationId newTitle) = m)
  ∧ (∀ conversationId,
      reachable m →
      (∀ c, c ∈ conversations (app (world m)) → conv_id c ≠ Some conversationId) →
      step m (Delete conversationId) = m)
  ∧ (∀ fileId,
      (∀ f, f ∈ attachedFiles (page (world m)) → att_id f ≠ fileId) →
      step m (Unstage fileId) = m)
  ∧ (∀ clk content,
      JS.trim content = "" → step m (Send clk content []) = m)
  ∧ (∀ clk,
      JS.trim (input (page (world m))) = "" →
      attachedFiles (page (world m)) = [] →
      step m (Submit clk) = m).
Proof.
  destruct m as [[a st] l]. simpl. repeat split.
  - intros i t Ht. unfold onApp. simpl.
    by rewrite renameConversation_blank.
  - intros i t Hlist Hcur. unfold onApp. simpl.
    by rewrite renameConversation_same_title.
  - intros i Hreach Habs. unfold onApp. simpl.
    rewrite deleteConversation_absent; [done | | done].
    apply (reachable_currentListed _ Hreach).
  - intros i Habs. unfold onPage. simpl.
    by rewrite removeFile_absent.
  - intros clk content Ht. by rewrite sendMessage_begin_empty.
  - intros clk Ht Hf. unfold handleSubmit_begin. simpl.
    apply truthy_false in Ht. rewrite Ht, Hf. done.
Qed.

Lemma invalid_calls_change_nothing_witness :
  let m := run [ CreateNew Sample.t0; Stage [(Sample.png, 7001%Z)] ] boot in
  step m (Rename "1700000000000" "   ") = m
  ∧ step m (Rename "1700000000000" " New Chat ") = m
  ∧ step m (Delete "1700000000999") = m
  ∧ step m (Unstage 7002%Z) = m
  ∧ step m (Send Sample.t1 "  " []) = m
  ∧ step (run [ CreateNew Sample.t0 ] boot) (Submit Sample.t1)
    = run [ CreateNew Sample.t0 ] boot.
Proof.
  intros m.
  destruct (invalid_calls_change_nothing m) as (Hblank & Hsame & Hdel & Hun & Hsend & _).
  destruct (invalid_calls_change_nothing (run [ CreateNew Sample.t0 ] boot))
    as (_ & _ & _ & _ & _ & Hsub).
  split; [apply Hblank; reflexivity |].
  split.
  { apply Hsame.
    - intros c Hin _. apply list_elem_of_singleton in Hin. by subst c.
    - intros c Hc _. injection Hc as <-. reflexivity. }
  split.
  { apply Hdel.
    - by eexists.
    - intros c Hin. apply list_elem_of_singleton in Hin. by subst c. }
  split.
  { apply Hun. intros f Hin. apply list_elem_of_singleton in Hin. by subst f. }
  split; [apply Hsend; reflexivity |].
  apply Hsub; reflexivity.
Defined.

End NoOps.

(** ** Staged attachments and live preview URLs *)

Section StagingBalance.
Import Staging.

Lemma balanced_empty : balanced emptyPage.
Proof.
  split; simpl.
  - constructor.
  - constructor.
  - reflexivity.
  - intros u Hu. by apply not_elem_of_empty in Hu.
  - intros f Hf. by apply not_elem_of_nil in Hf.
  - intros f Hf. by apply not_elem_of_nil in Hf.
Qed.

(** What one run of the mapping over the kept files allocates. *)
Lemma newFiles_allocates validFiles :
  ∀ b atts b',
    newFiles validFiles b = (atts, b') →
    (∀ f, f ∈ atts →
          (is_Some (att_preview f) ↔ isImage (att_type f))
          ∧ ∃ fi, fi ∈ validFiles ∧ att_size f = file_size fi.1)
    ∧ NoDup (omap att_preview atts)
    ∧ (∀ u, u ∈ omap att_preview atts → next b ≤ u < next b')
    ∧ next b ≤ next b'
    ∧ live b' = list_to_set (omap att_preview atts) ∪ live b.
Proof.
  induction validFiles as [| [file i] rest IH]; intros b atts b' Hnew.
  - injection Hnew as <- <-. simpl.
    split; [| split; [| split; [| split]]].
    + intros f Hf. by apply elem_of_nil in Hf.
    + constructor.
    + intros u Hu. by apply elem_of_nil in Hu.
    + lia.
    + set_solver.
  - simpl in Hnew.
    destruct (isImage (file_type file)) eqn:Himg.
    + destruct (newFiles rest _) as [atts' b2] eqn:Hrest.
      injection Hnew as <- <-.
      apply IH in Hrest as (Hfs & Hnd & Hrng & Hle & Hlive). simpl in *.
      split; [| split; [| split; [| split]]].
      * intros f Hf. apply elem_of_cons in Hf as [-> | Hf].
        -- simpl. rewrite Himg. split; [by split; eauto |].
           exists (file, i). split; [apply list_elem_of_here | done].
        -- destruct (Hfs f Hf) as [Hi (fi & Hfi & Hsz)].
           split; [done |]. exists fi. split; [by apply list_elem_of_further | done].
      * apply NoDup_cons. split; [| done].
        intros Hin. apply Hrng in Hin. lia.
      * intros u Hu. apply elem_of_cons in Hu as [-> | Hu]; [lia |].
        apply Hrng in Hu. lia.
      * lia.
      * rewrite Hlive. set_solver.
    + destruct (newFiles rest b) as [atts' b2] eqn:Hrest.
      injection Hnew as <- <-.
      apply IH in Hrest as (Hfs & Hnd & Hrng & Hle & Hlive). simpl in *.
      split; [| split; [| split; [| split]]]; try done.
      intros f Hf. apply elem_of_cons in Hf as [-> | Hf].
      * simpl. rewrite Himg. split.
        -- split; [intros [u [=]] | done].
        -- exists (file, i). split; [apply list_elem_of_here | done].
      * destruct (Hfs f Hf) as [Hi (fi & Hfi & Hsz)].
        split; [done |]. exists fi. split; [by apply list_elem_of_further | done].
Qed.

(** X13: Files over the limit are dropped: a selection of such files leaves the
    stage and the blob store as they are. *)
Lemma handleFileSelect_oversize selected st :
  (∀ fi, fi ∈ selected → (maxSize < file_size fi.1)%Z) →
  handleFileSelect selected st = st.
Proof.
  intros Hbig. unfold handleFileSelect.
  assert (filter (fun fi : File * Z => valid fi.1) selected = []) as ->.
  { apply elem_of_nil_inv. intros fi Hfi.
    apply list_elem_of_filter in Hfi as [Hvalid Hin]. by apply Hvalid, Hbig. }
  simpl. rewrite app_nil_r. by destruct st.
Qed.

Lemma balanced_stage selected st :
  balanced st →
  NoDup (att_id <$> attachedFiles (handleFileSelect selected st)) →
  balanced (handleFileSelect selected st).
Proof.
  intros [Hids Hnd Hlive Hnext Himg Hsz]. unfold handleFileSelect.
  destruct (newFiles _ (urls st)) as [atts b] eqn:Hnew. simpl. intros Hfresh.
  apply newFiles_allocates in Hnew as (Hfs & Hnd' & Hrng & Hle & Hlive').
  split; simpl; unfold previews in *; simpl.
  - exact Hfresh.
  - rewrite omap_app. apply NoDup_app. split; [done |]. split; [| done].
    intros u Hu Hu'. apply Hrng in Hu'.
    assert (u ∈ live (urls st)) as Hl by (rewrite Hlive; by apply elem_of_list_to_set).
    apply Hnext in Hl. lia.
  - rewrite omap_app, list_to_set_app_L, Hlive', Hlive. set_solver.
  - intros u Hu. rewrite Hlive' in Hu. apply elem_of_union in Hu as [Hu | Hu].
    + apply elem_of_list_to_set, Hrng in Hu. lia.
    + apply Hnext in Hu. lia.
  - intros f Hf. apply elem_of_app in Hf as [Hf | Hf]; [by apply Himg |].
    by apply Hfs.
  - intros f Hf. apply elem_of_app in Hf as [Hf | Hf]; [by apply Hsz |].
    destruct (Hfs f Hf) as [_ (fi & Hfi & ->)].
    apply list_elem_of_filter in Hfi as [Hvalid _]. exact Hvalid.
Qed.

Lemma omap_sublist {A B} (f : A → option B) (l1 l2 : list A) :
  l1 `sublist_of` l2 → omap f l1 `sublist_of` omap f l2.
Proof.
  intros Hsub. induction Hsub as [| x k1 k2 Hsub IH | x k1 k2 Hsub IH]; csimpl.
  - constructor.
  - destruct (f x); [by constructor | done].
  - destruct (f x); [by constructor | done].
Qed.

(** Among attachments of pairwise different ids, the id tells the
    attachment. *)
Lemma same_id_same_file (l : list Attachment) f g :
  NoDup (att_id <$> l) → f ∈ l → g ∈ l → att_id f = att_id g → f = g.
Proof.
  induction l as [| x l IH]; intros Hnd Hf Hg Hid.
  - by apply elem_of_nil in Hf.
  - rewrite fmap_cons in Hnd. apply NoDup_cons in Hnd as [Hx Hnd].
    apply elem_of_cons in Hf as [-> | Hf]; apply elem_of_cons in Hg as [-> | Hg].
    + done.
    + exfalso. apply Hx. rewrite Hid. by apply list_elem_of_fmap_2.
    + exfalso. apply Hx. rewrite <- Hid. by apply list_elem_of_fmap_2.
    + by apply IH.
Qed.

(** The first attachment of an id, when there is one. *)
Lemma find_by_id (l : list Attachment) fileId :
  match List.find (fun f => bool_decide (att_id f = fileId)) l with
  | Some f => f ∈ l ∧ att_id f = fileId
  | None => ∀ f, f ∈ l → att_id f ≠ fileId
  end.
Proof.
  destruct (List.find _ l) as [f|] eqn:Hfind.
  - apply List.find_some in Hfind as [Hin Hid].
    apply bool_decide_eq_true in Hid. by rewrite list_elem_of_In.
  - intros f Hin. apply list_elem_of_In in Hin.
    pose proof (List.find_none _ _ Hfind f Hin) as Hno.
    by apply bool_decide_eq_false in Hno.
Qed.

Lemma balanced_unstage fileId st :
  balanced st → balanced (removeFile fileId st).
Proof.
  intros Hbal.
  pose proof (find_by_id (attachedFiles st) fileId) as Hfind.
  destruct (List.find _ (attachedFiles st)) as [f|] eqn:Hf; cycle 1.
  { by rewrite removeFile_absent. }
  destruct Hfind as [Hin Hid].
  destruct Hbal as [Hids Hnd Hlive Hnext Himg Hsz].
  unfold removeFile. rewrite Hf.
  assert (∀ g, g ∈ filter (fun f => att_id f ≠ fileId) (attachedFiles st)
               ↔ g ∈ attachedFiles st ∧ g ≠ f) as Hkept.
  { intros g. rewrite list_elem_of_filter. split.
    - intros [Hne Hg]. split; [done |]. intros ->. done.
    - intros [Hg Hne]. split; [| done]. intros Hgid. apply Hne.
      apply (same_id_same_file (attachedFiles st)); [done.. | congruence]. }
  split; simpl; unfold previews in *; simpl.
  - apply (sublist_NoDup _ _ Hids). apply fmap_sublist, sublist_filter.
  - apply (sublist_NoDup _ _ Hnd). apply omap_sublist, sublist_filter.
  - unfold revokePreview, revokeObjectURL.
    destruct (att_preview f) as [u|] eqn:Hu; simpl; rewrite Hlive;
      symmetry; apply set_eq; intros v.
    + rewrite elem_of_difference, !elem_of_list_to_set, !list_elem_of_omap,
        elem_of_singleton.
      split.
      * intros (g & Hg0 & Hv). destruct (proj1 (Hkept g) Hg0) as [Hg Hne].
        split; [by exists g |]. intros ->. apply Hne.
        clear -Hnd Hg Hin Hv Hu.
        induction (attachedFiles st) as [| x l IH]; [by apply elem_of_nil in Hg |].
        csimpl in Hnd.
        apply elem_of_cons in Hg as [-> | Hg]; apply elem_of_cons in Hin as [-> | Hin].
        -- done.
        -- exfalso. rewrite Hv in Hnd. apply NoDup_cons in Hnd as [Hx _].
           apply Hx, list_elem_of_omap. by exists f.
        -- exfalso. rewrite Hu in Hnd. apply NoDup_cons in Hnd as [Hx _].
           apply Hx, list_elem_of_omap. by exists g.
        -- apply IH; [| done..]. destruct (att_preview x); [| done].
           by apply NoDup_cons in Hnd as [_ Hnd].
      * intros [(g & Hg & Hv) Hne]. exists g. split; [| done].
        apply Hkept. split; [done |]. intros ->. congruence.
    + rewrite !elem_of_list_to_set, !list_elem_of_omap. split.
      * intros (g & Hg0 & Hv). destruct (proj1 (Hkept g) Hg0) as [Hg _].
        by exists g.
      * intros (g & Hg & Hv). exists g. split; [| done].
        apply Hkept. split; [done |]. intros ->. congruence.
  - intros u. unfold revokePreview, revokeObjectURL.
    destruct (att_preview f); simpl; [| apply Hnext].
    intros Hu'. apply Hnext.
    by apply elem_of_difference in Hu' as [Hu' _].
  - intros g Hg0. destruct (proj1 (Hkept g) Hg0) as [Hg _]. by apply Himg.
  - intros g Hg0. destruct (proj1 (Hkept g) Hg0) as [Hg _]. by apply Hsz.
Qed.

Lemma balanced_run os :
  ∀ st, balanced st → freshIds os st → balanced (runOps os st).
Proof.
  induction os as [| o os IH]; intros st Hbal Hfresh; [done |].
  destruct Hfresh as [Ho Hfresh]. simpl. apply IH; [| done].
  destruct o as [selected | fileId]; simpl in *.
  - by apply balanced_stage.
  - by apply balanced_unstage.
Qed.

Lemma previews_count (l : list Attachment) :
  (∀ f, f ∈ l → (is_Some (att_preview f) ↔ isImage (att_type f))) →
  length (omap att_preview l) = length (filter (fun f => isImage (att_type f)) l).
Proof.
  induction l as [| x l IH]; intros Himg; [done |].
  assert (is_Some (att_preview x) ↔ isImage (att_type x)) as Hx
    by apply Himg, list_elem_of_here.
  assert (length (omap att_preview l)
          = length (filter (fun f => isImage (att_type f)) l)) as Hl.
  { apply IH. intros f Hf. by apply Himg, list_elem_of_further. }
  csimpl. rewrite filter_cons.
  destruct (att_preview x) as [u|]; destruct (decide (isImage (att_type x))) as [Hi | Hi];
    simpl; try (by rewrite Hl).
  - exfalso. apply Hi, Hx. eauto.
  - exfalso. apply Hx in Hi as [u [=]].
Qed.

Lemma balanced_count st :
  balanced st → size (live (urls st)) = length (stagedImages st).
Proof.
  intros [Hids Hnd Hlive Hnext Himg Hsz].
  rewrite Hlive, size_list_to_set by done.
  by apply previews_count.
Qed.

Lemma revoke_staged_preview st f u :
  balanced st → f ∈ attachedFiles st → att_preview f = Some u →
  live (urls (removeFile (att_id f) st)) = live (urls st) ∖ {[ u ]}.
Proof.
  intros Hbal Hin Hu. unfold removeFile. simpl.
  pose proof (find_by_id (attachedFiles st) (att_id f)) as Hfind.
  destruct (List.find _ (attachedFiles st)) as [g|].
  - destruct Hfind as [Hg Hid].
    assert (g = f) as ->
      by (apply (same_id_same_file (attachedFiles st)); [apply Hbal | done..]).
    unfold revokePreview. by rewrite Hu.
  - by destruct (Hfind f Hin).
Qed.

(** The balance under fresh ids.  Along every trace of [stage] and
    [unstage] from the empty stage in which the ids drawn are pairwise
    different, the live preview URLs are the previews held by the staged
    attachments, each once, and their number is the number of staged
    attachments of an image type; a staged attachment holds a preview
    exactly when its type is an image type, and none is over the size
    limit; removing a staged attachment that holds a preview takes that
    URL, and only that one, out of the live ones. *)
Theorem staging_balances_previews (os : list Op) :
  freshIds os emptyPage →
  let st := runOps os emptyPage in
  size (live (urls st)) = length (stagedImages st)
  ∧ (live (urls st) = list_to_set (previews st) ∧ NoDup (previews st))
  ∧ (∀ f, f ∈ attachedFiles st →
          (is_Some (att_preview f) ↔ isImage (att_type f))
          ∧ ¬ (maxSize < att_size f)%Z)
  ∧ (∀ f u, f ∈ attachedFiles st → att_preview f = Some u →
            let st' := removeFile (att_id f) st in
            u ∈ live (urls st)
            ∧ live (urls st') = live (urls st) ∖ {[ u ]}
            ∧ size (live (urls st')) + 1 = size (live (urls st))).
Proof.
  intros Hfresh st.
  assert (balanced st) as Hbal by (apply balanced_run; [apply balanced_empty | done]).
  split; [by apply balanced_count |].
  split; [split; apply Hbal |].
  split; [intros f Hf; split; by apply Hbal |].
  intros f u Hf Hu st'.
  assert (u ∈ live (urls st)) as Hlive.
  { rewrite (bal_live _ Hbal). apply elem_of_list_to_set, list_elem_of_omap. eauto. }
  assert (live (urls st') = live (urls st) ∖ {[ u ]}) as Hrev
    by (by apply revoke_staged_preview).
  split; [done |]. split; [done |].
  rewrite Hrev, size_difference, size_singleton by set_solver.
  assert (size (live (urls st)) ≠ 0); [| lia].
  apply size_non_empty_iff. set_solver.
Qed.

Lemma staging_balances_previews_witness :
  let st := runOps Sample.staging emptyPage in
  att_id <$> attachedFiles st = [7001%Z; 7002%Z; 7005%Z]
  ∧ size (live (urls st)) = length (stagedImages st)
  ∧ length (stagedImages st) = 2.
Proof.
  assert (Hfresh : freshIds Sample.staging emptyPage).
  { repeat split; apply (bool_decide_unpack _); vm_compute; exact I. }
  destruct (staging_balances_previews Sample.staging Hfresh) as [Hcount _].
  split; [reflexivity |]. split; [exact Hcount | reflexivity].
Defined.

(** C9: the balance fails when two staged files carry one id, which the
    ids [Date.now() + Math.random()] do not exclude.  Two images selected
    together under one id are both staged, each with a live preview;
    [removeFile] with that id revokes the preview of the first one found and
    filters both out: no image is staged any more and one preview URL is
    still live.  The other paths that take files off the stage, the
    submission and the cleanup, revoke the preview of every file they
    take. *)
Theorem removeFile_shared_id :
  let staged := runOps [ stage [(Sample.png, 7001%Z); (Sample.png, 7001%Z)] ]
                  emptyPage in
  let st := runOps [ unstage 7001%Z ] staged in
  (att_id <$> attachedFiles staged = [7001%Z; 7001%Z]
   ∧ att_preview <$> attachedFiles staged = [Some 0; Some 1]
   ∧ size (live (urls staged)) = 2)
  ∧ (attachedFiles st = []
     ∧ length (stagedImages st) = 0
     ∧ live (urls st) = {[ 1 ]}
     ∧ size (live (urls st)) = 1)
  ∧ live (unmount staged) = ∅.
Proof.
  repeat split; try reflexivity;
    apply (bool_decide_unpack _); vm_compute; exact I.
Qed.

End StagingBalance.


(** * Further properties of the provider *)

Section StoreOperations.

Lemma find_hasId_none conversationId (l : list Conversation) :
  (∀ c, c ∈ l → conv_id c ≠ Some conversationId) →
  List.find (hasId conversationId) l = None.
Proof.
  intros Habs. induction l as [| c l IH]; [done |]. simpl.
  unfold hasId at 1. rewrite bool_decide_eq_false_2.
  - apply IH. intros c' Hc'. by apply Habs, list_elem_of_further.
  - apply Habs, list_elem_of_here.
Qed.

(** X1: Selecting an id that no conversation of the list has changes nothing:
    the current conversation and the log stay. *)
Theorem selectConversation_unknown conversationId (s : AppState) :
  (∀ c, c ∈ conversations s → conv_id c ≠ Some conversationId) →
  exec (selectConversation conversationId) s = s.
Proof.
  intros Habs. unfold exec, selectConversation, mbind, M_bind, render.
  by rewrite find_hasId_none.
Qed.

Lemma selectConversation_unknown_witness :
  messages Sample.busy ≠ []
  ∧ exec (selectConversation "1699999999999") Sample.busy = Sample.busy.
Proof.
  split; [discriminate |].
  apply selectConversation_unknown.
  intros c Hc. apply elem_of_cons in Hc as [-> | Hc]; [discriminate |].
  apply list_elem_of_singleton in Hc as ->. discriminate.
Defined.

(** X2: What a delete leaves: the conversations of other ids, each as often
    as it was there and in the order they had; the current conversation and
    the log go when the current conversation has the id, and stay otherwise;
    the loading flag stays. *)
Theorem deleteConversation_keeps_the_others conversationId (s : AppState) :
  let s' := exec (deleteConversation conversationId) s in
  conversations s'
  = filter (fun c => conv_id c ≠ Some conversationId) (conversations s)
  ∧ (∀ c, c ∈ conversations s' ↔
          c ∈ conversations s ∧ conv_id c ≠ Some conversationId)
  ∧ conversations s' `sublist_of` conversations s
  ∧ (∀ c, currentConversation s = Some c → conv_id c = Some conversationId →
          currentConversation s' = None ∧ messages s' = [])
  ∧ ((∀ c, currentConversation s = Some c → conv_id c ≠ Some conversationId) →
     currentConversation s' = currentConversation s ∧ messages s' = messages s)
  ∧ isLoading s' = isLoading s.
Proof.
  intros s'. subst s'. unfold exec, deleteConversation, mbind, M_bind, render.
  destruct (currentHasId conversationId (currentConversation s)) eqn:Hhas; simpl.
  - split; [done |].
    split; [intros c; rewrite list_elem_of_filter; tauto |].
    split; [apply sublist_filter |].
    split; [done |]. split; [| done].
    intros Hne. apply currentHasId_true in Hhas as (c & Hc & Hid).
    by destruct (Hne c Hc).
  - split; [done |].
    split; [intros c; rewrite list_elem_of_filter; tauto |].
    split; [apply sublist_filter |].
    split; [| done].
    intros c Hc Hid. apply not_true_iff_false in Hhas. destruct Hhas.
    apply currentHasId_true. eauto.
Qed.

(** X3: A second delete of the same id changes nothing more. *)
Theorem deleteConversation_twice conversationId (s : AppState) :
  exec (deleteConversation conversationId)
    (exec (deleteConversation conversationId) s)
  = exec (deleteConversation conversationId) s.
Proof.
  unfold exec, deleteConversation, mbind, M_bind, render.
  destruct (currentHasId conversationId (currentConversation s)) eqn:Hhas; simpl.
  - by rewrite list_filter_filter_l.
  - rewrite Hhas. simpl. by rewrite list_filter_filter_l.
Qed.

(** X4: A rename to a title that does not trim to nothing keeps every
    conversation at its place, with its id and its creation time: the entry
    at a position is the entry that was there, retitled if it has the id.
    The log and the loading flag stay. *)
Theorem renameConversation_keeps_positions conversationId newTitle (s : AppState) :
  JS.trim newTitle ≠ "" →
  let s' := exec (renameConversation conversationId newTitle) s in
  (∀ k, conversations s' !! k
        = (fun c => if bool_decide (conv_id c = Some conversationId)
                    then withTitle c (JS.trim newTitle) else c)
            <$> conversations s !! k)
  ∧ length (conversations s') = length (conversations s)
  ∧ conv_id <$> conversations s' = conv_id <$> conversations s
  ∧ conv_createdAt <$> conversations s' = conv_createdAt <$> conversations s
  ∧ messages s' = messages s
  ∧ isLoading s' = isLoading s.
Proof.
  intros Ht s'. subst s'.
  unfold exec, renameConversation, mbind, M_bind, render.
  apply truthy_true in Ht. rewrite Ht. simpl.
  assert (∀ f : Conversation → option string,
            (∀ c t, f (withTitle c t) = f c) →
            f <$> ((fun c => if hasId conversationId c
                             then withTitle c (JS.trim newTitle) else c)
                     <$> conversations s) = f <$> conversations s) as Hkeep.
  { intros f Hf. rewrite <- list_fmap_compose. apply list_fmap_ext.
    intros _ c _. simpl. by destruct (hasId conversationId c). }
  destruct (currentHasId conversationId (currentConversation s)); simpl.
  - split; [intros k; by rewrite list_lookup_fmap |].
    split; [by rewrite length_fmap |].
    split; [by apply Hkeep |]. split; [by apply Hkeep | done].
  - split; [intros k; by rewrite list_lookup_fmap |].
    split; [by rewrite length_fmap |].
    split; [by apply Hkeep |]. split; [by apply Hkeep | done].
Qed.

Lemma renameConversation_keeps_positions_witness :
  let s' := exec (renameConversation "1700000000000" "  Budget  ") Sample.busy in
  conv_title <$> conversations Sample.busy = ["Which sites are live?"; "New Chat"]
  ∧ conv_title <$> conversations s' = ["Which sites are live?"; "Budget"]
  ∧ conv_id <$> conversations s' = conv_id <$> conversations Sample.busy
  ∧ messages s' = messages Sample.busy.
Proof.
  assert (Ht : JS.trim "  Budget  " ≠ "") by discriminate.
  destruct (renameConversation_keeps_positions "1700000000000" "  Budget  "
              Sample.busy Ht) as (_ & _ & Hids & _ & Hlog & _).
  split; [reflexivity |]. split; [reflexivity |]. split; [exact Hids | exact Hlog].
Defined.

(** X5: Creating a conversation and deleting it at once gives back the list as
    it was, provided no older conversation has the id drawn from the clock;
    no conversation is current then and the log is empty. *)
Theorem createNewConversation_then_delete clk (s : AppState) :
  (∀ c, c ∈ conversations s → conv_id c ≠ Some (pretty (now clk))) →
  let s' := exec (createNewConversation clk ;;
                  deleteConversation (pretty (now clk))) s in
  conversations s' = conversations s
  ∧ currentConversation s' = None
  ∧ messages s' = []
  ∧ isLoading s' = isLoading s.
Proof.
  intros Hfresh s'. subst s'.
  unfold exec, createNewConversation, deleteConversation, mbind, M_bind, render.
  simpl. unfold hasId. simpl. rewrite bool_decide_eq_true_2 by done. simpl.
  rewrite filter_cons_False by (simpl; intros Hne; by apply Hne).
  by rewrite filter_keeps_all.
Qed.

Lemma createNewConversation_then_delete_witness :
  conversations
    (exec (createNewConversation Sample.t2 ;;
           deleteConversation (pretty (now Sample.t2))) Sample.busy)
  = conversations Sample.busy.
Proof.
  refine (proj1 (createNewConversation_then_delete Sample.t2 Sample.busy _)).
  intros c Hc. apply elem_of_cons in Hc as [-> | Hc]; [discriminate |].
  apply list_elem_of_singleton in Hc as ->. discriminate.
Defined.

End StoreOperations.

(** * Further properties of the dispatch *)

Section Exchange.

(** What a settlement appends, whatever the call kept and whatever state
    it finds. *)
Lemma sendMessage_settle_log p o clkA clkC s :
  let reply := match o with
               | Resolved data => assistantMessage clkA data
               | Rejected => errorMessage clkA
               end in
  messages (exec (sendMessage_settle p o clkA clkC) s) = messages s ++ [reply]
  ∧ isLoading (exec (sendMessage_settle p o clkA clkC) s) = false.
Proof.
  unfold exec, sendMessage_settle. destruct o as [data|]; [| done].
  destruct (p_currentConversation p) as [cc|]; simpl; [| done].
  by destruct (_ && _).
Qed.

(** X6: Every send that passes its guard puts the user message, carrying
    one summary per file in the order of the files, at the end of the log
    at once.  Its settlement adds one message from the assistant, and no
    more, at the end of whatever log it finds (what ran in between may have
    emptied it), and sets the loading flag to false.  With nothing running
    in between, the log gains exactly the two, next to each other and in
    that order.  The assistant's message is flagged as an error exactly
    when the request was rejected or was answered without a body. *)
Theorem sendMessage_appends_one_exchange
    clk clkA clkC content files (r : Settlement) (s : AppState) :
  sendable content files →
  let o := outcomeOf r in
  let reply := match o with
               | Resolved data => assistantMessage clkA data
               | Rejected => errorMessage clkA
               end in
  let s' := exec (sendMessage clk content files o clkA clkC) s in
  messages (sendMessage_begin clk content files s).2
  = messages s ++ [userMessage clk content files]
  ∧ (∀ arrival,
       let settled :=
         exec (sendMessage_settle (suspended content files s) o clkA clkC)
           arrival in
       messages settled = messages arrival ++ [reply]
       ∧ isLoading settled = false)
  ∧ messages s' = messages s ++ [userMessage clk content files; reply]
  ∧ msg_role (userMessage clk content files) = user
  ∧ fs_name <$> msg_files (userMessage clk content files) = att_name <$> files
  ∧ msg_role reply = assistant
  ∧ msg_error reply = match r with
                      | Fulfilled (Some _) => false
                      | Fulfilled None | Failed => true
                      end
  ∧ isLoading s' = false.
Proof.
  intros Hpre o reply s'. subst s'.
  split; [by rewrite (sendMessage_begin_sendable _ _ _ _ Hpre) |].
  split; [intros arrival settled; apply sendMessage_settle_log |].
  rewrite (sendMessage_sendable _ _ _ _ _ _ _ Hpre).
  destruct (sendMessage_settle_log (suspended content files s) o clkA clkC
              {| conversations := conversations s;
                 currentConversation := currentConversation s;
                 messages := messages s ++ [userMessage clk content files];
                 isLoading := true;
                 sidebarOpen := sidebarOpen s |}) as [Hlog Hload].
  rewrite Hlog, Hload. simpl. rewrite <- app_assoc. simpl.
  split; [reflexivity |]. split; [done |].
  split; [by rewrite <- list_fmap_compose |].
  subst reply o. by destruct r as [[data|]|].
Qed.

(** A request that fails, with nothing in between; and a request answered
    without a body whose settlement finds the log emptied by a selection
    made in between. *)
Lemma sendMessage_appends_one_exchange_witness :
  let s' := exec (sendMessage Sample.t2 "" Sample.twoDocs Rejected
                    Sample.t3 Sample.t3) Sample.busy in
  let arrival :=
    exec (selectConversation "1700000000000")
      (sendMessage_begin Sample.t2 "" Sample.twoDocs Sample.busy).2 in
  let settled :=
    exec (sendMessage_settle (suspended "" Sample.twoDocs Sample.busy)
            (outcomeOf (Fulfilled None)) Sample.t3 Sample.t3) arrival in
  (length (messages s') = length (messages Sample.busy) + 2
   ∧ isLoading s' = false)
  ∧ messages arrival = []
  ∧ msg_error <$> messages settled = [true].
Proof.
  assert (Hpre : sendable "" Sample.twoDocs) by (right; discriminate).
  destruct (sendMessage_appends_one_exchange Sample.t2 Sample.t3 Sample.t3
              "" Sample.twoDocs Failed Sample.busy Hpre)
    as (_ & _ & Hlog & _ & _ & _ & _ & Hload).
  destruct (sendMessage_appends_one_exchange Sample.t2 Sample.t3 Sample.t3
              "" Sample.twoDocs (Fulfilled None) Sample.busy Hpre)
    as (_ & Hsettle & _).
  cbv zeta. split; [| split; [reflexivity |]].
  - cbv zeta in Hlog, Hload. simpl outcomeOf in Hlog, Hload.
    rewrite Hlog, Hload. split; [| reflexivity].
    rewrite length_app. reflexivity.
  - cbv zeta in Hsettle. rewrite (proj1 (Hsettle _)). reflexivity.
Defined.

(** X7: A send called while a conversation is current never adds, removes
    or reorders conversations of the list and never changes their ids or
    creation times, whatever state its settlement finds.  A conversation
    that is current then stays current with its id and creation time; only
    its title can change.  When none is current then (cleared or deleted in
    between), none is current afterwards, unless the request was answered
    for a call made on a conversation titled "New Chat" with an empty log:
    then the current conversation becomes an object that holds the derived
    title and nothing else. *)
Theorem sendMessage_settle_keeps_ids p o clkA clkC cc (arrival : AppState) :
  p_currentConversation p = Some cc →
  let settled := exec (sendMessage_settle p o clkA clkC) arrival in
  let retitles :=
    match o with
    | Resolved _ => bool_decide (conv_title cc = "New Chat")
                    && bool_decide (p_messages_length p = 0)
    | Rejected => false
    end in
  conv_id <$> conversations settled = conv_id <$> conversations arrival
  ∧ conv_createdAt <$> conversations settled
    = conv_createdAt <$> conversations arrival
  ∧ length (conversations settled) = length (conversations arrival)
  ∧ (∀ c, currentConversation arrival = Some c →
          currentConversation settled
          = Some (if retitles
                  then withTitle c (derivedTitle (p_content p) (p_files p))
                  else c))
  ∧ (currentConversation arrival = None →
     currentConversation settled
     = if retitles
       then Some {| conv_id := None;
                    conv_title := derivedTitle (p_content p) (p_files p);
                    conv_createdAt := None |}
       else None).
Proof.
  intros Hcc settled retitles. subst settled retitles.
  unfold exec, sendMessage_settle.
  destruct o as [data|].
  - rewrite Hcc. destruct (_ && _); simpl.
    + split; [apply retitle_ids |]. split.
      { rewrite <- list_fmap_compose. apply list_fmap_ext.
        intros _ c _. simpl. by destruct (sameId cc c). }
      split; [by rewrite length_fmap |].
      split; [by intros c -> | by intros ->].
    + repeat split; try done; by intros c ->.
  - simpl. repeat split; try done; by intros c ->.
Qed.

(** A call made on a fresh "New Chat": its answer finds another
    conversation current, and then none at all. *)
Lemma sendMessage_settle_keeps_ids_witness :
  let p := suspended "hello" [] Sample.oneChat in
  let settled :=
    exec (sendMessage_settle p (Resolved Sample.hi) Sample.t3 Sample.t3)
      Sample.busy in
  let cleared :=
    exec (sendMessage_settle p (Resolved Sample.hi) Sample.t3 Sample.t3)
      (exec clearCurrentConversation Sample.oneChat) in
  conv_id <$> conversations settled = conv_id <$> conversations Sample.busy
  ∧ conv_id <$> currentConversation settled = Some (Some "1700000000250")
  ∧ currentConversation cleared
    = Some {| conv_id := None; conv_title := "hello"; conv_createdAt := None |}.
Proof.
  intros p settled cleared.
  destruct (sendMessage_settle_keeps_ids p (Resolved Sample.hi)
              Sample.t3 Sample.t3 _ Sample.busy eq_refl)
    as (Hids & _ & _ & Hcur & _).
  destruct (sendMessage_settle_keeps_ids p (Resolved Sample.hi)
              Sample.t3 Sample.t3 _
              (exec clearCurrentConversation Sample.oneChat) eq_refl)
    as (_ & _ & _ & _ & Hnone).
  split; [exact Hids |]. split.
  - subst settled. cbv zeta in Hcur. rewrite (Hcur _ eq_refl). reflexivity.
  - subst cleared. cbv zeta in Hnone. rewrite (Hnone eq_refl). reflexivity.
Defined.

(** X8: A successful send leaves every title alone when the current
    conversation is not titled "New Chat" or the log already holds a
    message: the list and the current conversation are as before. *)
Theorem sendMessage_later_exchange_keeps_titles
    clk clkA clkC content files data cc (s : AppState) :
  currentConversation s = Some cc →
  conv_title cc ≠ "New Chat" ∨ messages s ≠ [] →
  sendable content files →
  let s' := exec (sendMessage clk content files (Resolved data) clkA clkC) s in
  conversations s' = conversations s
  ∧ currentConversation s' = currentConversation s.
Proof.
  intros Hcur Hold Hpre s'. subst s'.
  rewrite (sendMessage_sendable _ _ _ _ _ _ _ Hpre).
  unfold exec, sendMessage_settle. simpl. rewrite Hcur.
  assert (bool_decide (conv_title cc = "New Chat")
          && bool_decide (length (messages s) = 0) = false) as ->; [| done].
  destruct Hold as [Ht | Hm].
  - by rewrite (bool_decide_eq_false_2 _ Ht).
  - rewrite (bool_decide_eq_false_2 (length (messages s) = 0)).
    + apply andb_false_r.
    + by destruct (messages s).
Qed.

Lemma sendMessage_later_exchange_keeps_titles_witness :
  let s' := exec (sendMessage Sample.t3 "And the dark ones?" []
                    (Resolved Sample.hi) Sample.t3 Sample.t3) Sample.busy in
  conversations s' = conversations Sample.busy
  ∧ currentConversation s' = currentConversation Sample.busy.
Proof.
  assert (Hpre : sendable "And the dark ones?" []) by (left; discriminate).
  assert (Hold : conv_title
                   {| conv_id := Some "1700000000250";
                      conv_title := "Which sites are live?";
                      conv_createdAt := Some (iso Sample.t1) |} ≠ "New Chat"
                 ∨ messages Sample.busy ≠ []) by (left; discriminate).
  exact (sendMessage_later_exchange_keeps_titles Sample.t3 Sample.t3 Sample.t3
           "And the dark ones?" [] Sample.hi _ Sample.busy eq_refl Hold Hpre).
Defined.

End Exchange.

(** * Invariants of the event loop *)

Section Labels.

Lemma pretty_N_go_nonempty (x : N) :
  ∀ s, s ≠ "" → pretty_N_go x s ≠ "".
Proof.
  induction (N.lt_wf_0 x) as [x _ IH]. intros s Hs.
  destruct (decide (x = 0)%N) as [-> | Hx].
  - by rewrite pretty_N_go_0.
  - rewrite pretty_N_go_step by lia.
    apply IH; [apply N.div_lt; lia | done].
Qed.

Lemma pretty_N_nonempty (x : N) : pretty x ≠ "".
Proof.
  unfold pretty, pretty_N. destruct (decide (x = 0)%N) as [-> | Hx]; [done |].
  rewrite pretty_N_go_step by lia. by apply pretty_N_go_nonempty.
Qed.

Lemma pretty_Z_nonempty (z : Z) : pretty z ≠ "".
Proof.
  destruct z as [| x | x]; [done | apply pretty_N_nonempty |].
  unfold pretty, pretty_Z. done.
Qed.

Lemma orElse_nonempty v d : d ≠ "" → JS.orElse v d ≠ "".
Proof.
  intros Hd. unfold JS.orElse. destruct v as [t|]; [| done].
  destruct (JS.truthy t) eqn:Ht; [by apply truthy_true | done].
Qed.

Lemma derivedTitle_nonempty content files : derivedTitle content files ≠ "".
Proof. unfold derivedTitle. by apply orElse_nonempty. Qed.

Lemma wellLabelled_initial : wellLabelled initial.
Proof.
  split.
  - intros c Hc. by apply elem_of_nil in Hc.
  - intros c Hc. discriminate Hc.
Qed.

(** Retitling with a non-empty title keeps the labels. *)
Lemma wellLabelled_retitle (P : Conversation → bool) t (a : AppState) cur :
  t ≠ "" → wellLabelled a →
  (cur = currentConversation a ∨ cur = Some (spreadTitle (currentConversation a) t)) →
  wellLabelled
    {| conversations := (fun c => if P c then withTitle c t else c)
                          <$> conversations a;
       currentConversation := cur;
       messages := messages a;
       isLoading := isLoading a;
       sidebarOpen := sidebarOpen a |}.
Proof.
  intros Ht [Hlist Hcur] Hc. split; simpl.
  - intros c Hin. apply list_elem_of_fmap in Hin as (c0 & -> & Hin).
    destruct (Hlist c0 Hin) as [Hid Htitle].
    by destruct (P c0).
  - intros c Hc'. destruct Hc as [-> | ->]; [by apply Hcur |].
    injection Hc' as <-. by destruct (currentConversation a).
Qed.

Lemma wellLabelled_log (a : AppState) msgs loading :
  wellLabelled a →
  wellLabelled {| conversations := conversations a;
                  currentConversation := currentConversation a;
                  messages := msgs; isLoading := loading;
                  sidebarOpen := sidebarOpen a |}.
Proof. by intros [Hlist Hcur]. Qed.

Lemma wellLabelled_begin clk content files a :
  wellLabelled a → wellLabelled (sendMessage_begin clk content files a).2.
Proof.
  intros Hwl. unfold sendMessage_begin, mbind, M_bind, render.
  destruct (_ && _); [done |]. by apply wellLabelled_log.
Qed.

Lemma wellLabelled_settle p o clkA clkC a :
  wellLabelled a → wellLabelled (exec (sendMessage_settle p o clkA clkC) a).
Proof.
  intros Hwl. unfold exec, sendMessage_settle.
  destruct o as [data|]; [| by apply wellLabelled_log].
  destruct (p_currentConversation p) as [cc|]; simpl.
  - destruct (_ && _); simpl; [| by apply wellLabelled_log].
    apply (wellLabelled_log
             {| conversations := _; currentConversation := _;
                messages := messages a ++ [assistantMessage clkA data];
                isLoading := isLoading a; sidebarOpen := sidebarOpen a |}).
    apply (wellLabelled_retitle (sameId cc) _
             {| conversations := conversations a;
                currentConversation := currentConversation a;
                messages := messages a ++ [assistantMessage clkA data];
                isLoading := isLoading a; sidebarOpen := sidebarOpen a |});
      [apply derivedTitle_nonempty | by apply wellLabelled_log | by right].
  - destruct Hwl as [Hlist Hcur]. split; simpl.
    + intros c Hin. apply elem_of_cons in Hin as [-> | Hin]; [| by apply Hlist].
      simpl. split; [| apply derivedTitle_nonempty].
      eexists. split; [done |]. apply orElse_nonempty, pretty_Z_nonempty.
    + intros c [= <-]. apply derivedTitle_nonempty.
Qed.

Lemma wellLabelled_step m e :
  wellLabelled (app (world m)) → wellLabelled (app (world (step m e))).
Proof.
  intros Hwl. destruct e; simpl; try exact Hwl.
  - destruct Hwl as [Hlist Hcur]. split; simpl.
    + intros c Hin. apply elem_of_cons in Hin as [-> | Hin]; [| by apply Hlist].
      simpl. split; [| done]. eexists. split; [done |]. apply pretty_Z_nonempty.
    + by intros c [= <-].
  - unfold exec, selectConversation, mbind, M_bind, render.
    destruct (List.find _ _) as [c'|] eqn:Hfind; [| exact Hwl].
    destruct Hwl as [Hlist Hcur]. split; simpl; [done |].
    intros c [= <-]. apply List.find_some in Hfind as [Hin _].
    apply list_elem_of_In in Hin. by destruct (Hlist c' Hin).
  - unfold exec, deleteConversation, mbind, M_bind, render.
    destruct Hwl as [Hlist Hcur].
    destruct (currentHasId _ _); split; simpl;
      try (intros c Hin; apply list_elem_of_filter in Hin as [_ Hin];
           by apply Hlist); [by intros c [=] | done].
  - unfold exec, renameConversation, mbind, M_bind, render.
    destruct (negb (JS.truthy (JS.trim newTitle))) eqn:Ht; [exact Hwl |].
    apply negb_false_iff, truthy_true in Ht.
    destruct (currentHasId _ _); simpl;
      apply wellLabelled_retitle; auto.
  - destruct Hwl as [Hlist Hcur]. split; simpl; [done | by intros c [=]].
  - unfold handleSubmit_begin. destruct (_ && _); [| exact Hwl].
    pose proof (wellLabelled_begin clk (input (page (world m)))
                  (attachedFiles (page (world m))) _ Hwl) as Hb.
    by destruct (sendMessage_begin _ _ _ _).
  - pose proof (wellLabelled_begin clk content files _ Hwl) as Hb.
    by destruct (sendMessage_begin _ _ _ _).
  - destruct (inflight m !! k); [| exact Hwl].
    by apply wellLabelled_settle.
Qed.

(** X9: In every state the event loop reaches, every conversation of the list
    has a non-empty id and a non-empty title, and the current conversation
    a non-empty title. *)
Theorem reachable_wellLabelled m :
  reachable m → wellLabelled (app (world m)).
Proof.
  intros [es <-]. induction es as [| e es IH] using rev_ind.
  - exact wellLabelled_initial.
  - rewrite run_snoc. by apply wellLabelled_step.
Qed.

Lemma reachable_wellLabelled_witness :
  wellLabelled (app (world Sample.switched)).
Proof. apply reachable_wellLabelled. by eexists. Defined.

End Labels.

Section Flight.

Lemma isLoading_select i a : isLoading (exec (selectConversation i) a) = isLoading a.
Proof.
  unfold exec, selectConversation, mbind, M_bind, render.
  by destruct (List.find _ _).
Qed.

Lemma isLoading_delete i a : isLoading (exec (deleteConversation i) a) = isLoading a.
Proof.
  unfold exec, deleteConversation, mbind, M_bind, render.
  by destruct (currentHasId _ _).
Qed.

Lemma isLoading_rename i t a :
  isLoading (exec (renameConversation i t) a) = isLoading a.
Proof.
  unfold exec, renameConversation, mbind, M_bind, render.
  destruct (negb _); [done |]. by destruct (currentHasId _ _).
Qed.

(** The guard of the form is the precondition of the send. *)
Lemma submit_guard_sendable content (files : list Attachment) :
  JS.truthy (JS.trim content) || bool_decide (0 < length files) = true →
  sendable content files.
Proof.
  intros Hg. apply orb_true_iff in Hg as [Ht | Hf].
  - left. by apply truthy_true.
  - right. apply bool_decide_eq_true in Hf. destruct files; [simpl in Hf; lia | done].
Qed.

(** X10: While a send is in flight the form does nothing: a submission changes
    neither the provider, nor the page, nor the requests in flight. *)
Theorem submit_while_loading clk (m : Machine) :
  isLoading (app (world m)) = true → step m (Submit clk) = m.
Proof.
  intros Hload. simpl. unfold handleSubmit_begin.
  rewrite Hload, andb_false_r. by destruct m.
Qed.

Lemma submit_while_loading_witness :
  let m := run [ Typing "hello"; Submit Sample.t0; Typing "again" ] boot in
  isLoading (app (world m)) = true ∧ step m (Submit Sample.t1) = m.
Proof.
  intros m. split; [reflexivity |].
  apply submit_while_loading. reflexivity.
Defined.

Lemma single_flight_step m e :
  uiEvent e = true →
  (isLoading (app (world m)) = true ∧ (∃ p, inflight m = [p]))
  ∨ (isLoading (app (world m)) = false ∧ inflight m = []) →
  (isLoading (app (world (step m e))) = true ∧ (∃ p, inflight (step m e) = [p]))
  ∨ (isLoading (app (world (step m e))) = false ∧ inflight (step m e) = []).
Proof.
  intros Hui Hinv. destruct e; try discriminate Hui; simpl; try exact Hinv.
  - by rewrite isLoading_select.
  - by rewrite isLoading_delete.
  - by rewrite isLoading_rename.
  - unfold handleSubmit_begin.
    destruct Hinv as [[Hload Hp] | [Hload Hnil]].
    + rewrite Hload, andb_false_r. simpl. by left.
    + rewrite Hload, andb_true_r.
      destruct (_ || _) eqn:Hg; simpl; [| by right].
      rewrite (sendMessage_begin_sendable _ _ _ _ (submit_guard_sendable _ _ Hg)).
      simpl. rewrite Hnil. left. eauto.
  - destruct Hinv as [[Hload [p Hp]] | [Hload Hnil]].
    + rewrite Hp. destruct k as [| k]; simpl; [| left; rewrite Hp; eauto].
      right. split; [| done].
      apply (sendMessage_settle_log p o clkA clkC (app (world m))).
    + rewrite Hnil. simpl. right. by rewrite Hnil.
Qed.

(** X11: Through the components, that is with every send going through the
    form, at most one request is in flight at any time, and the loading
    flag is true exactly while there is one. *)
Theorem ui_keeps_one_request_in_flight (es : list Event) :
  forallb uiEvent es = true →
  let m := run es boot in
  length (inflight m) ≤ 1
  ∧ (isLoading (app (world m)) = true ↔ inflight m ≠ []).
Proof.
  intros Hui m.
  assert ((isLoading (app (world m)) = true ∧ (∃ p, inflight m = [p]))
          ∨ (isLoading (app (world m)) = false ∧ inflight m = [])) as Hinv.
  { subst m. induction es as [| e es IH] using rev_ind; [by right |].
    rewrite forallb_app in Hui. apply andb_true_iff in Hui as [Hes He].
    simpl in He. rewrite andb_true_r in He.
    rewrite run_snoc. apply single_flight_step; auto. }
  destruct Hinv as [[Hload [p Hp]] | [Hload Hnil]].
  - rewrite Hp, Hload. simpl. split; [lia | done].
  - rewrite Hnil, Hload. simpl. split; [lia |]. split; [discriminate | done].
Qed.

Lemma ui_keeps_one_request_in_flight_witness :
  let m := run [ Typing "hello"; Submit Sample.t0; Typing "more";
                 Submit Sample.t1; CreateNew Sample.t2 ] boot in
  length (inflight m) ≤ 1.
Proof.
  intros m.
  exact (proj1 (ui_keeps_one_request_in_flight
                  [ Typing "hello"; Submit Sample.t0; Typing "more";
                    Submit Sample.t1; CreateNew Sample.t2 ] eq_refl)).
Defined.

(** Why the form matters: two calls of the provider's [sendMessage] in a
    row are both in flight. *)
Example sendMessage_is_not_gated :
  length (inflight (run [ Send Sample.t0 "one" []; Send Sample.t1 "two" [] ] boot))
  = 2.
Proof. reflexivity. Qed.

End Flight.

(** * Further properties of the chat page *)

Section StagingMore.
Import Staging.

Lemma newFiles_fields validFiles :
  ∀ b, (fun f => (att_file f, att_id f)) <$> (newFiles validFiles b).1 = validFiles
       ∧ ∀ f, f ∈ (newFiles validFiles b).1 →
              att_name f = file_name (att_file f)
              ∧ att_size f = file_size (att_file f)
              ∧ att_type f = file_type (att_file f).
Proof.
  induction validFiles as [| [file i] rest IH]; intros b; csimpl.
  - split; [done |]. intros f Hf. by apply elem_of_nil in Hf.
  - destruct (isImage (file_type file)).
    + destruct (IH (createObjectURL b).2) as [Hpairs Hcopy].
      csimpl in *. destruct (newFiles rest _) as [atts b2]. csimpl in *.
      split; [by rewrite Hpairs |].
      intros f Hf. apply elem_of_cons in Hf as [-> | Hf]; [done | by apply Hcopy].
    + destruct (IH b) as [Hpairs Hcopy].
      destruct (newFiles rest b) as [atts b2]. csimpl in *.
      split; [by rewrite Hpairs |].
      intros f Hf. apply elem_of_cons in Hf as [-> | Hf]; [done | by apply Hcopy].
Qed.

(** X12: A selection adds, after the files already staged and in the order of
    the selection, one attachment for each selected file of at most
    10485760 bytes (10 MiB) and none for the others; every new attachment
    copies the name, the size and the type of its file; the text of the
    input stays. *)
Theorem handleFileSelect_stages_files_within_limit selected (st : PageState) :
  let st' := handleFileSelect selected st in
  ∃ atts,
    attachedFiles st' = attachedFiles st ++ atts
    ∧ (fun f => (att_file f, att_id f)) <$> atts
      = filter (fun fi => (file_size fi.1 ≤ 10485760)%Z) selected
    ∧ (∀ f, f ∈ atts →
            att_name f = file_name (att_file f)
            ∧ att_size f = file_size (att_file f)
            ∧ att_type f = file_type (att_file f))
    ∧ input st' = input st.
Proof.
  intros st'. subst st'. unfold handleFileSelect.
  pose proof (newFiles_fields
                (filter (fun fi : File * Z => valid fi.1) selected) (urls st))
    as [Hpairs Hcopy].
  destruct (newFiles _ (urls st)) as [atts b]. cbn [fst snd] in Hpairs, Hcopy.
  cbn [attachedFiles input]. exists atts. split; [done |]. split; [| done].
  rewrite Hpairs. apply list_filter_iff.
  intros [file i]. unfold valid, ChatPage.maxSize. simpl. lia.
Qed.

(** An image of 11 MiB selected after a small one. *)
Lemma handleFileSelect_oversize_witness :
  let st := handleFileSelect [(Sample.png, 7001%Z)] emptyPage in
  handleFileSelect [(Sample.huge, 7002%Z)] st = st.
Proof.
  intros st. apply handleFileSelect_oversize.
  intros fi Hfi. apply list_elem_of_singleton in Hfi as ->. reflexivity.
Defined.

(** X14: A removal keeps the attachments of other ids, each as often as it
    was there and in their order, and the text of the input, makes no URL
    live, and a second removal under the same id changes nothing more. *)
Theorem removeFile_keeps_the_others fileId (st : PageState) :
  let st' := removeFile fileId st in
  attachedFiles st' = filter (fun f => att_id f ≠ fileId) (attachedFiles st)
  ∧ (∀ f, f ∈ attachedFiles st' ↔ f ∈ attachedFiles st ∧ att_id f ≠ fileId)
  ∧ attachedFiles st' `sublist_of` attachedFiles st
  ∧ input st' = input st
  ∧ live (urls st') ⊆ live (urls st)
  ∧ removeFile fileId st' = st'.
Proof.
  intros st'. subst st'.
  split; [done |].
  split; [intros f; simpl; rewrite list_elem_of_filter; tauto |].
  split; [apply sublist_filter |]. split; [done |]. split.
  - unfold removeFile. simpl. destruct (List.find _ _) as [f|]; [| done].
    unfold revokePreview. destruct (att_preview f); [| done].
    simpl. apply subseteq_difference_l. done.
  - apply removeFile_absent. intros f Hf. simpl in Hf.
    by apply list_elem_of_filter in Hf as [Hne _].
Qed.

(** What a run of revocations leaves live. *)
Lemma revokeAll_live (files : list Attachment) :
  ∀ b, live (revokeAll files b) = live b ∖ list_to_set (omap att_preview files)
       ∧ next (revokeAll files b) = next b.
Proof.
  unfold revokeAll.
  induction files as [| f files IH]; intros b; csimpl.
  - split; [| done]. set_solver.
  - destruct (IH (revokePreview f b)) as [Hlive Hnext].
    rewrite Hlive, Hnext. unfold revokePreview.
    destruct (att_preview f) as [u|]; csimpl; [| done].
    split; [| done]. set_solver.
Qed.

(** The first stretch of a submission that goes through. *)
Lemma handleSubmit_begin_through clk (w : World) :
  JS.trim (input (page w)) ≠ "" ∨ attachedFiles (page w) ≠ [] →
  isLoading (app w) = false →
  let p := (handleSubmit_begin clk w).1 in
  let w' := (handleSubmit_begin clk w).2 in
  (∃ q, p = Some q
        ∧ fd_message (p_formData q) = JS.trim (input (page w))
        ∧ fd_conversation_id (p_formData q)
          = currentIdOrEmpty (currentConversation (app w))
        ∧ fd_files (p_formData q) = att_file <$> attachedFiles (page w))
  ∧ input (page w') = ""
  ∧ attachedFiles (page w') = []
  ∧ live (urls (page w'))
    = live (urls (page w)) ∖ list_to_set (previews (page w))
  ∧ messages (app w')
    = messages (app w)
      ++ [userMessage clk (input (page w)) (attachedFiles (page w))]
  ∧ isLoading (app w') = true.
Proof.
  intros Hpre Hload p w'. subst p w'. unfold handleSubmit_begin.
  assert (JS.truthy (JS.trim (input (page w)))
          || bool_decide (0 < length (attachedFiles (page w))) = true) as ->.
  { destruct Hpre as [Ht | Hf].
    - apply truthy_true in Ht. by rewrite Ht.
    - destruct (attachedFiles (page w)); [done |].
      rewrite bool_decide_eq_true_2 by (simpl; lia). apply orb_true_r. }
  rewrite Hload. simpl.
  rewrite (sendMessage_begin_sendable clk _ _ _ Hpre). simpl.
  split; [eexists; split; [reflexivity | done] |].
  split; [done |]. split; [done |]. split; [| done].
  apply revokeAll_live.
Qed.

(** X15: A submission that goes through empties the stage and the input, and
    revokes the preview of every file it takes.  The request it issues
    carries the trimmed text, the id of the current conversation or the
    empty string, and the raw files in the order they were staged; the log
    gains the user message and the loading flag is set. *)
Theorem handleSubmit_drains_the_stage clk (w : World) :
  JS.trim (input (page w)) ≠ "" ∨ attachedFiles (page w) ≠ [] →
  isLoading (app w) = false →
  let p := (handleSubmit_begin clk w).1 in
  let w' := (handleSubmit_begin clk w).2 in
  (∃ q, p = Some q
        ∧ fd_message (p_formData q) = JS.trim (input (page w))
        ∧ fd_conversation_id (p_formData q)
          = currentIdOrEmpty (currentConversation (app w))
        ∧ fd_files (p_formData q) = att_file <$> attachedFiles (page w))
  ∧ input (page w') = ""
  ∧ attachedFiles (page w') = []
  ∧ live (urls (page w'))
    = live (urls (page w)) ∖ list_to_set (previews (page w))
  ∧ messages (app w')
    = messages (app w)
      ++ [userMessage clk (input (page w)) (attachedFiles (page w))]
  ∧ isLoading (app w') = true.
Proof. apply handleSubmit_begin_through. Qed.

Lemma handleSubmit_drains_the_stage_witness :
  let w := world (run [ Stage [(Sample.png, 7001%Z); (Sample.pdf, 7002%Z)];
                        Typing " see attached " ] boot) in
  size (live (urls (page w))) = 1
  ∧ attachedFiles (page (handleSubmit_begin Sample.t0 w).2) = []
  ∧ live (urls (page (handleSubmit_begin Sample.t0 w).2)) = ∅.
Proof.
  intros w.
  assert (Hpre : JS.trim (input (page w)) ≠ "" ∨ attachedFiles (page w) ≠ [])
    by (left; discriminate).
  destruct (handleSubmit_drains_the_stage Sample.t0 w Hpre eq_refl)
    as (_ & _ & Hfiles & Hlive & _).
  split; [reflexivity |]. split; [exact Hfiles |].
  rewrite Hlive. apply (bool_decide_unpack _). vm_compute. exact I.
Defined.

(** X16: The summaries of the user message keep the preview URLs of the
    submitted files, and every one of them has been revoked by the time the
    message is in the log. *)
Theorem handleSubmit_message_previews_revoked clk (w : World) :
  JS.trim (input (page w)) ≠ "" ∨ attachedFiles (page w) ≠ [] →
  isLoading (app w) = false →
  let w' := (handleSubmit_begin clk w).2 in
  ∃ m, last (messages (app w')) = Some m
       ∧ fs_preview <$> msg_files m = att_preview <$> attachedFiles (page w)
       ∧ ∀ f u, f ∈ msg_files m → fs_preview f = Some u →
                u ∉ live (urls (page w')).
Proof.
  intros Hpre Hload w'.
  destruct (handleSubmit_begin_through clk w Hpre Hload)
    as (_ & _ & _ & Hlive & Hlog & _).
  fold w' in Hlive, Hlog.
  exists (userMessage clk (input (page w)) (attachedFiles (page w))).
  rewrite Hlog, last_snoc. split; [done |]. simpl.
  split; [by rewrite <- list_fmap_compose |].
  intros f u Hf Hu. rewrite Hlive.
  apply list_elem_of_fmap in Hf as (a & -> & Ha). simpl in Hu.
  intros Hin. apply elem_of_difference in Hin as [_ Hnot]. apply Hnot.
  apply elem_of_list_to_set, list_elem_of_omap. eauto.
Qed.

Lemma handleSubmit_message_previews_revoked_witness :
  let w := world (run [ Stage [(Sample.png, 7001%Z)] ] boot) in
  let w' := (handleSubmit_begin Sample.t0 w).2 in
  fmap (fmap fs_preview) (msg_files <$> messages (app w')) = [[Some 0]]
  ∧ 0 ∉ live (urls (page w')).
Proof.
  intros w w'.
  assert (Hpre : JS.trim (input (page w)) ≠ "" ∨ attachedFiles (page w) ≠ [])
    by (right; discriminate).
  destruct (handleSubmit_message_previews_revoked Sample.t0 w Hpre eq_refl)
    as (m & Hlast & _ & Hrev).
  split; [reflexivity |].
  injection Hlast as <-. apply (Hrev (mkFileSummary "plot.png" 5 "image/png" (Some 0)));
    [apply list_elem_of_here | reflexivity].
Defined.

(** X19: The two places that pick an icon for a file without preview test the
    same three cases in different orders; they agree on every type. *)
Theorem file_icons_agree (type : string) : getFileIcon type = messageFileIcon type.
Proof.
  unfold getFileIcon, messageFileIcon.
  destruct (decide (type = "application/pdf")) as [-> | Hne]; [done |].
  by rewrite (bool_decide_eq_false_2 _ Hne).
Qed.

End StagingMore.

Section PageInvariant.
Import Staging.

Lemma balanced_input st text :
  balanced st →
  balanced {| input := text; attachedFiles := attachedFiles st; urls := urls st |}.
Proof. by intros []. Qed.

Lemma balanced_drained st :
  balanced st →
  balanced {| input := ""; attachedFiles := [];
              urls := revokeAll (attachedFiles st) (urls st) |}.
Proof.
  intros [Hids Hnd Hlive Hnext Himg Hsz].
  destruct (revokeAll_live (attachedFiles st) (urls st)) as [Hl Hn].
  split; simpl; unfold previews; simpl.
  - constructor.
  - constructor.
  - rewrite Hl, Hlive. unfold previews. set_solver.
  - intros u Hu. rewrite Hl, Hlive in Hu. unfold previews in Hu. set_solver.
  - intros f Hf. by apply elem_of_nil in Hf.
  - intros f Hf. by apply elem_of_nil in Hf.
Qed.

Lemma balanced_step m e :
  balanced (page (world m)) →
  match e with
  | Stage _ => NoDup (att_id <$> attachedFiles (page (world (step m e))))
  | _ => True
  end →
  balanced (page (world (step m e))).
Proof.
  intros Hbal Hfresh. destruct e; simpl; try exact Hbal.
  - by apply balanced_input.
  - by apply balanced_stage.
  - by apply balanced_unstage.
  - unfold handleSubmit_begin. destruct (_ && _); [| exact Hbal].
    destruct (sendMessage_begin _ _ _ _). simpl. by apply balanced_drained.
  - by destruct (sendMessage_begin _ _ _ _).
  - by destruct (inflight m !! k).
Qed.

Lemma balanced_events es :
  ∀ m, balanced (page (world m)) → freshStages es m →
       balanced (page (world (run es m))).
Proof.
  induction es as [| e es IH]; intros m Hbal Hfresh; [done |].
  destruct Hfresh as [He Hfresh]. simpl. apply IH; [| done].
  by apply balanced_step.
Qed.

Lemma events_keep_previews_balanced_aux (es : list Event) :
  freshStages es boot →
  live (urls (page (world (run es boot))))
  = list_to_set (previews (page (world (run es boot))))
  ∧ size (live (urls (page (world (run es boot)))))
    = length (stagedImages (page (world (run es boot)))).
Proof.
  intros Hfresh.
  assert (balanced (page (world (run es boot)))) as Hbal
    by (apply balanced_events; [apply balanced_empty | done]).
  split; [apply Hbal | by apply balanced_count].
Qed.

(** X17: Along every run of the event loop in which the ids drawn for staged
    files are fresh, whatever else happens (typing, submissions,
    settlements, the callbacks of the provider), the live preview URLs are
    the previews held by the staged attachments, as many as there are
    staged attachments of an image type. *)
Theorem events_keep_previews_balanced (es : list Event) :
  freshStages es boot →
  let st := page (world (run es boot)) in
  live (urls st) = list_to_set (previews st)
  ∧ size (live (urls st)) = length (stagedImages st).
Proof. intros Hfresh st. by apply events_keep_previews_balanced_aux. Qed.

Lemma events_keep_previews_balanced_witness :
  let st := page (world (run [ Stage [(Sample.png, 7001%Z); (Sample.pdf, 7002%Z)];
                               Typing "two files"; Submit Sample.t0;
                               Stage [(Sample.png, 7003%Z)];
                               Settle 0 Rejected Sample.t1 Sample.t1;
                               Unstage 7001%Z ] boot)) in
  size (live (urls st)) = length (stagedImages st)
  ∧ length (stagedImages st) = 1.
Proof.
  intros st.
  assert (Hfresh : freshStages
                     [ Stage [(Sample.png, 7001%Z); (Sample.pdf, 7002%Z)];
                       Typing "two files"; Submit Sample.t0;
                       Stage [(Sample.png, 7003%Z)];
                       Settle 0 Rejected Sample.t1 Sample.t1;
                       Unstage 7001%Z ] boot).
  { repeat split; apply (bool_decide_unpack _); vm_compute; exact I. }
  split; [| reflexivity].
  exact (proj2 (events_keep_previews_balanced _ Hfresh)).
Defined.

(** X18: Leaving the page, at any point of such a run, leaves no preview URL
    live: the cleanup revokes the previews of what is still staged, and
    nothing else was live. *)
Theorem unmount_leaves_no_live_url (es : list Event) :
  freshStages es boot →
  live (unmount (page (world (run es boot)))) = ∅.
Proof.
  intros Hfresh. unfold unmount.
  destruct (revokeAll_live (attachedFiles (page (world (run es boot))))
              (urls (page (world (run es boot))))) as [Hl _].
  rewrite Hl.
  rewrite (proj1 (events_keep_previews_balanced_aux es Hfresh)).
  apply difference_diag_L.
Qed.

Lemma unmount_leaves_no_live_url_witness :
  size (live (urls (page (world (run [ Stage [(Sample.png, 7001%Z)] ] boot))))) = 1
  ∧ live (unmount (page (world (run [ Stage [(Sample.png, 7001%Z)] ] boot)))) = ∅.
Proof.
  split; [reflexivity |].
  apply unmount_leaves_no_live_url.
  repeat split. apply (bool_decide_unpack _). vm_compute. exact I.
Defined.

End PageInvariant.

(** * The rename editors *)

Section Editors.

Lemma trimEnd_twice s : JS.trimEnd (JS.trimEnd s) = JS.trimEnd s.
Proof.
  induction s as [| c r IH]; [done |]. simpl.
  destruct (JS.trimEnd r) as [| c' r'] eqn:Hr.
  - destruct (JS.isWhiteSpace c) eqn:Hc; [done |]. simpl. by rewrite Hc.
  - simpl in *. by rewrite IH.
Qed.

Lemma trimEnd_keeps_head c r :
  JS.isWhiteSpace c = false → ∃ r', JS.trimEnd (String c r) = String c r'.
Proof.
  intros Hc. simpl. destruct (JS.trimEnd r); [rewrite Hc |]; eauto.
Qed.

Lemma trimStart_result s :
  JS.trimStart s = "" ∨
  ∃ c r, JS.trimStart s = String c r ∧ JS.isWhiteSpace c = false.
Proof.
  induction s as [| c r IH]; [by left |]. simpl.
  destruct (JS.isWhiteSpace c) eqn:Hc; [done |]. right. eauto.
Qed.

(** Trimming what is trimmed changes nothing. *)
Lemma trim_twice s : JS.trim (JS.trim s) = JS.trim s.
Proof.
  unfold JS.trim. destruct (trimStart_result s) as [-> | (c & r & -> & Hc)]; [done |].
  destruct (trimEnd_keeps_head c r Hc) as [r' Hr']. rewrite Hr' at 1.
  simpl JS.trimStart. rewrite Hc, <- Hr'. apply trimEnd_twice.
Qed.

Lemma renameConversationAt_retitles conversationId (t : string) (s : AppState) :
  exec (renameConversationAt conversationId (JS.trim t)) s
  = exec (renameConversationAt conversationId t) s.
Proof.
  unfold exec, renameConversationAt, mbind, M_bind, render.
  by rewrite trim_twice.
Qed.

Lemma renameConversationAt_list conversationId newTitle (s : AppState) :
  JS.trim newTitle ≠ "" →
  conversations (exec (renameConversationAt conversationId newTitle) s)
  = (fun c => if bool_decide (conv_id c = conversationId)
              then withTitle c (JS.trim newTitle) else c) <$> conversations s
  ∧ messages (exec (renameConversationAt conversationId newTitle) s) = messages s
  ∧ (currentConversation s ≫= conv_id = conversationId →
     currentConversation (exec (renameConversationAt conversationId newTitle) s)
     = Some (spreadTitle (currentConversation s) (JS.trim newTitle)))
  ∧ (currentConversation s ≫= conv_id ≠ conversationId →
     currentConversation (exec (renameConversationAt conversationId newTitle) s)
     = currentConversation s).
Proof.
  intros Ht. unfold exec, renameConversationAt, mbind, M_bind, render.
  apply truthy_true in Ht. rewrite Ht. simpl.
  destruct (decide (currentConversation s ≫= conv_id = conversationId)) as [He | He].
  - rewrite (bool_decide_eq_true_2 _ He). simpl. done.
  - rewrite (bool_decide_eq_false_2 _ He). simpl. done.
Qed.

(** The provider's [renameConversation] is [renameConversationAt] at an id
    that is a string. *)
Lemma renameConversationAt_Some conversationId newTitle (s : AppState) :
  renameConversationAt (Some conversationId) newTitle s
  = renameConversation conversationId newTitle s.
Proof.
  unfold renameConversationAt, renameConversation, mbind, M_bind, render.
  destruct (negb _); [done |].
  destruct (currentConversation s) as [c|] eqn:Hc; reflexivity.
Qed.

(** X20: The inline editor of a sidebar item: an edit that trims to nothing or
    to the title the item shows calls nothing and changes nothing; any other
    edit gives the trimmed text as title to the conversations of the item's
    id, each at its place, and leaves the log alone. *)
Theorem ConversationItem_handleRename_effect conversation editValue (s : AppState) :
  let s' := exec (ConversationItem_handleRename conversation editValue) s in
  ((JS.trim editValue = "" ∨ JS.trim editValue = conv_title conversation) → s' = s)
  ∧ (JS.trim editValue ≠ "" → JS.trim editValue ≠ conv_title conversation →
     conversations s'
     = (fun c => if bool_decide (conv_id c = conv_id conversation)
                 then withTitle c (JS.trim editValue) else c) <$> conversations s
     ∧ (conversation ∈ conversations s →
        withTitle conversation (JS.trim editValue) ∈ conversations s')
     ∧ messages s' = messages s).
Proof.
  intros s'. subst s'. unfold ConversationItem_handleRename. split.
  - intros [Ht | Ht].
    + apply truthy_false in Ht. rewrite Ht. reflexivity.
    + rewrite (bool_decide_eq_true_2 _ Ht), andb_false_r. reflexivity.
  - intros Ht Hne. pose proof Ht as Ht'. apply truthy_true in Ht'.
    rewrite Ht', (bool_decide_eq_false_2 _ Hne). simpl.
    rewrite renameConversationAt_retitles.
    destruct (renameConversationAt_list (conv_id conversation) editValue s Ht)
      as (Hlist & Hlog & _).
    rewrite Hlist, Hlog. split; [done |]. split; [| done].
    intros Hin. apply list_elem_of_fmap. exists conversation.
    by rewrite bool_decide_eq_true_2.
Qed.

(** X21: The title editor of the chat header: without a current conversation,
    or for an edit that trims to nothing or to the current title, nothing
    changes; any other edit gives the trimmed text as title to the current
    conversation and to the conversations of its id in the list. *)
Theorem handleTitleEdit_effect editTitle (s : AppState) :
  let s' := exec (handleTitleEdit editTitle) s in
  (currentConversation s = None → s' = s)
  ∧ (∀ cc, currentConversation s = Some cc →
       ((JS.trim editTitle = "" ∨ JS.trim editTitle = conv_title cc) → s' = s)
       ∧ (JS.trim editTitle ≠ "" → JS.trim editTitle ≠ conv_title cc →
          currentConversation s' = Some (withTitle cc (JS.trim editTitle))
          ∧ conversations s'
            = (fun c => if bool_decide (conv_id c = conv_id cc)
                        then withTitle c (JS.trim editTitle) else c)
                <$> conversations s
          ∧ messages s' = messages s)).
Proof.
  intros s'. subst s'. unfold handleTitleEdit, exec, mbind, M_bind, render.
  split; [by intros -> |].
  intros cc Hcc. rewrite Hcc. split.
  - intros [Ht | Ht].
    + apply truthy_false in Ht. rewrite Ht. reflexivity.
    + rewrite (bool_decide_eq_true_2 _ Ht), andb_false_r. reflexivity.
  - intros Ht Hne. pose proof Ht as Ht'. apply truthy_true in Ht'.
    rewrite Ht', (bool_decide_eq_false_2 _ Hne). simpl.
    pose proof (renameConversationAt_retitles (conv_id cc) editTitle s) as Hre.
    unfold exec in Hre. rewrite Hre.
    destruct (renameConversationAt_list (conv_id cc) editTitle s Ht)
      as (Hlist & Hlog & Hcur & _).
    unfold exec in Hlist, Hlog, Hcur.
    rewrite Hlist, Hlog, Hcur by (by rewrite Hcc).
    by rewrite Hcc.
Qed.

End Editors.

(** * The data page *)

Section Spreadsheets.

Lemma toLowerCaseUnit_dot (c : ascii) :
  bool_decide (JS.toLowerCaseUnit c = "."%char) = bool_decide (c = "."%char).
Proof.
  destruct c as [[] [] [] [] [] [] [] []]; vm_compute; reflexivity.
Qed.

Lemma lastIndexOf_toLowerCase (s : string) :
  JS.lastIndexOf "." (JS.toLowerCase s) = JS.lastIndexOf "." s.
Proof.
  induction s as [| c r IH]; [done |]. simpl.
  by rewrite IH, toLowerCaseUnit_dot.
Qed.

Lemma lastIndexOf_append c (s t : string) k :
  JS.lastIndexOf c t = Some k →
  JS.lastIndexOf c (s +:+ t) = Some (String.length s + k).
Proof.
  intros Ht. induction s as [| a r IH]; [done |]. simpl. by rewrite IH.
Qed.

Lemma substringFrom_append (s t : string) :
  JS.substringFrom (String.length s + 0) (s +:+ t) = t.
Proof.
  induction s as [| a r IH]; simpl; [by destruct t | done].
Qed.

(** X22: The extension is read from the last dot and compared in lower case:
    a name that ends in [.xlsx], [.xls] or [.csv] in any mix of cases has
    that extension, whatever comes before, dots included. *)
Theorem fileExtension_of_suffix (stem suffix : string) :
  JS.toLowerCase suffix ∈ DataPage.allowedTypes →
  DataPage.fileExtension (stem +:+ suffix) = JS.toLowerCase suffix.
Proof.
  intros Hext. unfold DataPage.fileExtension.
  assert (JS.lastIndexOf "." suffix = Some 0) as Hdot.
  { rewrite <- lastIndexOf_toLowerCase.
    unfold DataPage.allowedTypes in Hext.
    repeat (apply elem_of_cons in Hext as [-> | Hext]; [reflexivity |]).
    by apply elem_of_nil in Hext. }
  rewrite (lastIndexOf_append _ _ _ _ Hdot). simpl.
  by rewrite substringFrom_append.
Qed.

Lemma fileExtension_of_suffix_witness :
  DataPage.fileExtension "rollout.2024.Q3.XlsX" = ".xlsx".
Proof.
  apply (fileExtension_of_suffix "rollout.2024.Q3" ".XlsX").
  apply list_elem_of_here.
Defined.

(** X23: A selection is taken exactly when the extension is allowed and the
    size is at most 52428800 bytes (50 MiB), and then the error is cleared.
    A file of another type is refused with the type message, whatever its
    size; a file of an allowed type over the limit with the size message.
    A refused selection leaves the file selected before in place.  In all
    cases the success flag is false and nothing else changes. *)
Theorem DataPage_handleFileSelect_cases (selectedFile : File) (d : DataPage.DataState) :
  let d' := DataPage.handleFileSelect selectedFile d in
  let ext := DataPage.fileExtension (file_name selectedFile) in
  (ext ∈ DataPage.allowedTypes → (file_size selectedFile ≤ 52428800)%Z →
   DataPage.file d' = Some selectedFile ∧ DataPage.error d' = None)
  ∧ (ext ∉ DataPage.allowedTypes →
     DataPage.file d' = DataPage.file d
     ∧ DataPage.error d' = Some DataPage.invalidType)
  ∧ (ext ∈ DataPage.allowedTypes → (52428800 < file_size selectedFile)%Z →
     DataPage.file d' = DataPage.file d
     ∧ DataPage.error d' = Some DataPage.tooLarge)
  ∧ DataPage.uploadSuccess d' = false
  ∧ DataPage.isUploading d' = DataPage.isUploading d
  ∧ DataPage.isDragging d' = DataPage.isDragging d
  ∧ DataPage.fileMetadata d' = DataPage.fileMetadata d.
Proof.
  intros d' ext. subst d'. unfold DataPage.handleFileSelect. fold ext.
  destruct (decide (ext ∈ DataPage.allowedTypes)) as [Hin | Hout].
  - rewrite (bool_decide_eq_true_2 _ Hin). simpl.
    destruct (decide (DataPage.maxSize < file_size selectedFile)%Z) as [Hbig | Hok].
    + rewrite (bool_decide_eq_true_2 _ Hbig). simpl.
      unfold DataPage.maxSize in Hbig. repeat split; intros; (done || lia).
    + rewrite (bool_decide_eq_false_2 _ Hok). simpl.
      unfold DataPage.maxSize in Hok. repeat split; intros; (done || lia).
  - rewrite (bool_decide_eq_false_2 _ Hout). simpl.
    repeat split; intros; done.
Qed.

Lemma DataPage_never_succeeds_step d e :
  DataPage.fileId d = None ∧ DataPage.fileMetadata d = None
  ∧ DataPage.previewData d = None ∧ DataPage.uploadSuccess d = false →
  DataPage.fileId (DataPage.dataStep d e) = None
  ∧ DataPage.fileMetadata (DataPage.dataStep d e) = None
  ∧ DataPage.previewData (DataPage.dataStep d e) = None
  ∧ DataPage.uploadSuccess (DataPage.dataStep d e) = false.
Proof.
  intros Hinv.
  assert (∀ f d0,
            DataPage.fileId d0 = None ∧ DataPage.fileMetadata d0 = None
            ∧ DataPage.previewData d0 = None ∧ DataPage.uploadSuccess d0 = false →
            DataPage.fileId (DataPage.handleFileSelect f d0) = None
            ∧ DataPage.fileMetadata (DataPage.handleFileSelect f d0) = None
            ∧ DataPage.previewData (DataPage.handleFileSelect f d0) = None
            ∧ DataPage.uploadSuccess (DataPage.handleFileSelect f d0) = false)
    as Hsel.
  { intros f d0 (H1 & H2 & H3 & H4). unfold DataPage.handleFileSelect.
    destruct (negb _); [done |]. by destruct (bool_decide _). }
  destruct e as [f | | | f | | |]; simpl; try done.
  - destruct f; [by apply Hsel | done].
  - destruct f; [by apply Hsel | done].
  - by destruct Hinv as (H1 & H2 & H3 & H4).
Qed.

(** X24: Whatever is done on the page, an upload never succeeds: no file id,
    no metadata and no preview ever arrive and the success flag stays
    false, so the dashboard is never shown; an upload leaves the
    feature-disabled message and, once its timer has run, is over. *)
Theorem DataPage_never_succeeds (es : list DataPage.DataEvent) :
  let d := DataPage.dataRun es DataPage.initialData in
  (DataPage.fileId d = None ∧ DataPage.fileMetadata d = None
   ∧ DataPage.previewData d = None ∧ DataPage.uploadSuccess d = false)
  ∧ DataPage.error (DataPage.dataStep d DataPage.Upload) = Some DataPage.disabled
  ∧ DataPage.isUploading
      (DataPage.dataStep (DataPage.dataStep d DataPage.Upload) DataPage.UploadTimer)
    = false.
Proof.
  intros d. split; [| done]. subst d. unfold DataPage.dataRun.
  induction es as [| e es IH] using rev_ind; [done |].
  rewrite fold_left_app. simpl. by apply DataPage_never_succeeds_step.
Qed.

Lemma DataPage_file_valid_step d e :
  (∀ f, DataPage.file d = Some f →
        DataPage.fileExtension (file_name f) ∈ DataPage.allowedTypes
        ∧ (file_size f ≤ 52428800)%Z) →
  ∀ f, DataPage.file (DataPage.dataStep d e) = Some f →
       DataPage.fileExtension (file_name f) ∈ DataPage.allowedTypes
       ∧ (file_size f ≤ 52428800)%Z.
Proof.
  intros Hinv.
  assert (∀ g d0,
            (∀ f, DataPage.file d0 = Some f →
                  DataPage.fileExtension (file_name f) ∈ DataPage.allowedTypes
                  ∧ (file_size f ≤ 52428800)%Z) →
            ∀ f, DataPage.file (DataPage.handleFileSelect g d0) = Some f →
                 DataPage.fileExtension (file_name f) ∈ DataPage.allowedTypes
                 ∧ (file_size f ≤ 52428800)%Z) as Hsel.
  { intros g d0 Hd0 f. unfold DataPage.handleFileSelect.
    destruct (decide (DataPage.fileExtension (file_name g) ∈ DataPage.allowedTypes))
      as [Hin | Hout].
    - rewrite (bool_decide_eq_true_2 _ Hin). simpl.
      destruct (decide (DataPage.maxSize < file_size g)%Z) as [Hbig | Hok].
      + rewrite (bool_decide_eq_true_2 _ Hbig). simpl. apply Hd0.
      + rewrite (bool_decide_eq_false_2 _ Hok). simpl. intros [= <-].
        unfold DataPage.maxSize in Hok. split; [done | lia].
    - rewrite (bool_decide_eq_false_2 _ Hout). simpl. apply Hd0. }
  destruct e as [g | | | g | | |]; simpl; try exact Hinv.
  - destruct g; [by apply Hsel | exact Hinv].
  - destruct g; [by apply Hsel | exact Hinv].
  - intros f [=].
Qed.

(** X25: Whatever is done on the page, the file it holds, if any, has an
    allowed extension and at most 50 MiB: a refused selection never
    replaces it and never gets in. *)
Theorem DataPage_holds_valid_file (es : list DataPage.DataEvent) (f : File) :
  DataPage.file (DataPage.dataRun es DataPage.initialData) = Some f →
  DataPage.fileExtension (file_name f) ∈ DataPage.allowedTypes
  ∧ (file_size f ≤ 52428800)%Z.
Proof.
  revert f. unfold DataPage.dataRun.
  induction es as [| e es IH] using rev_ind; [by intros f [=] |].
  rewrite fold_left_app. simpl. by apply DataPage_file_valid_step.
Qed.

(** A spreadsheet chosen, then a text file dropped: the text file is
    refused and the spreadsheet stays. *)
Lemma DataPage_holds_valid_file_witness :
  let sheet := mkFile "sites.CSV" 4096 "text/csv" in
  let notes := mkFile "notes.txt" 12 "text/plain" in
  let d := DataPage.dataRun [ DataPage.FileInputChange (Some sheet);
                              DataPage.DragOver;
                              DataPage.Drop (Some notes) ] DataPage.initialData in
  DataPage.file d = Some sheet
  ∧ DataPage.error d = Some DataPage.invalidType
  ∧ DataPage.fileExtension (file_name sheet) ∈ DataPage.allowedTypes.
Proof.
  intros sheet notes d.
  split; [reflexivity |]. split; [reflexivity |].
  exact (proj1 (DataPage_holds_valid_file
                  [ DataPage.FileInputChange (Some sheet); DataPage.DragOver;
                    DataPage.Drop (Some notes) ] sheet eq_refl)).
Defined.

End Spreadsheets.
